(** * Voice assistant backend (backend.py): a shallow embedding

    The backend is one Python module: a [VoiceAssistant] object that owns the
    conversation history and talks to four HTTP services (speech-to-text,
    chat completion, text-to-speech, weather), and a websocket handler that
    buffers audio frames and reacts to the [audio_end] and [reset] control
    messages.

    Python values that come from or go to JSON are modelled by [json]; a call
    that may raise returns a [result]; the object state, the websocket and the
    outside world are threaded through a state-and-exception monad [M]. *)

From Stdlib Require Import String Ascii List ZArith Lia Bool.
From Stdlib Require Import Strings.Byte Floats.PrimFloat.
Import ListNotations.

Local Open Scope string_scope.
Local Open Scope list_scope.
Local Open Scope Z_scope.

Set Implicit Arguments.
Set Warnings "-register-all,-inexact-float".

(** ** Python values *)

(** What [json.loads] / [response.json()] produce and what the code stores
    in dicts and lists.  A dict is an association list read by its first
    binding for a key. *)
Inductive json : Type :=
| JNull
| JBool (b : bool)
| JInt (n : Z)
| JFloat (f : float)
| JStr (s : string)
| JArr (xs : list json)
| JObj (kvs : list (string * json)).

(** The exception classes the code can meet.  [RequestError] stands for
    whatever an http client call raises before a response exists. *)
Inductive exn : Type :=
| KeyError (key : json)
| IndexError
| TypeError
| AttributeError
| JSONDecodeError
| HTTPStatusError (status_code : Z)
| RequestError (detail : string)
| WebSocketDisconnect
| RuntimeError (detail : string).

Inductive result (A : Type) : Type :=
| Ok (a : A)
| Raise (e : exn).
Arguments Ok {A} a.
Arguments Raise {A} e.

Fixpoint lookup (k : string) (kvs : list (string * json)) : option json :=
  match kvs with
  | [] => None
  | (k', v) :: rest => if String.eqb k k' then Some v else lookup k rest
  end.

(** [bool(v)] *)
Definition truthy (v : json) : bool :=
  match v with
  | JNull => false
  | JBool b => b
  | JInt n => negb (n =? 0)
  | JFloat f => negb (PrimFloat.eqb f 0%float)
  | JStr s => negb (String.eqb s "")
  | JArr xs => match xs with [] => false | _ :: _ => true end
  | JObj kvs => match kvs with [] => false | _ :: _ => true end
  end.

(** [v[k]] for a string key [k] *)
Definition getitem (v : json) (k : string) : result json :=
  match v with
  | JObj kvs =>
      match lookup k kvs with
      | Some x => Ok x
      | None => Raise (KeyError (JStr k))
      end
  | _ => Raise TypeError
  end.

(** [v[0]] *)
Definition getitem0 (v : json) : result json :=
  match v with
  | JArr (x :: _) => Ok x
  | JArr [] => Raise IndexError
  | JStr (String c _) => Ok (JStr (String c EmptyString))
  | JStr EmptyString => Raise IndexError
  | JObj _ => Raise (KeyError (JInt 0))
  | _ => Raise TypeError
  end.

(** [v.get(k, default)] *)
Definition dict_get (v : json) (k : string) (default : json) : result json :=
  match v with
  | JObj kvs =>
      Ok (match lookup k kvs with Some x => x | None => default end)
  | _ => Raise AttributeError
  end.

(** [v == s] for a string literal [s] *)
Definition eq_str (v : json) (s : string) : bool :=
  match v with
  | JStr s' => String.eqb s' s
  | _ => false
  end.

(** Text is held as its UTF-8 encoding. [str.isspace] accepts the code
    points U+0009 to U+000D and U+001C to U+0020, which take one byte,
    U+0085 and U+00A0, which take two, and U+1680, U+2000 to U+200A, U+2028,
    U+2029, U+202F, U+205F and U+3000, which take three. *)
Definition isspace (c : ascii) : bool :=
  let n := Z.of_nat (nat_of_ascii c) in
  ((9 <=? n) && (n <=? 13)) || ((28 <=? n) && (n <=? 32)).

Definition isspace2 (c d : ascii) : bool :=
  let m := Z.of_nat (nat_of_ascii c) in
  let n := Z.of_nat (nat_of_ascii d) in
  (m =? 194) && ((n =? 133) || (n =? 160)).

Definition isspace3 (c d e : ascii) : bool :=
  let l := Z.of_nat (nat_of_ascii c) in
  let m := Z.of_nat (nat_of_ascii d) in
  let n := Z.of_nat (nat_of_ascii e) in
  ((l =? 225) && (m =? 154) && (n =? 128)) ||
  ((l =? 226) && (m =? 128) &&
   (((128 <=? n) && (n <=? 138)) || (n =? 168) || (n =? 169) || (n =? 175)))
  || ((l =? 226) && (m =? 129) && (n =? 159))
  || ((l =? 227) && (m =? 128) && (n =? 128)).

(** A text made of white space only. *)
Fixpoint all_space (s : string) : bool :=
  match s with
  | EmptyString => true
  | String c rest =>
      if isspace c then all_space rest else
      match rest with
      | String d rest2 =>
          if isspace2 c d then all_space rest2 else
          match rest2 with
          | String e rest3 => isspace3 c d e && all_space rest3
          | EmptyString => false
          end
      | EmptyString => false
      end
  end.

(** [str.strip()]: the white space is removed code point by code point,
    from the left and then from the right. *)
Fixpoint lstrip (s : string) : string :=
  match s with
  | EmptyString => EmptyString
  | String c rest =>
      if isspace c then lstrip rest else
      match rest with
      | String d rest2 =>
          if isspace2 c d then lstrip rest2 else
          match rest2 with
          | String e rest3 => if isspace3 c d e then lstrip rest3 else s
          | EmptyString => s
          end
      | EmptyString => s
      end
  end.

Fixpoint rstrip (s : string) : string :=
  match s with
  | EmptyString => EmptyString
  | String c rest => if all_space s then EmptyString else String c (rstrip rest)
  end.

Definition strip (s : string) : string := rstrip (lstrip s).

(** [base64.b64encode(bs).decode('utf-8')] *)
Definition b64_alphabet : list ascii :=
  list_ascii_of_string
    "ABCDEFGHIJKLMNOPQRSTUVWXYZabcdefghijklmnopqrstuvwxyz0123456789+/".

Definition b64_char (n : Z) : ascii :=
  nth (Z.to_nat n) b64_alphabet "="%char.

Definition byte_val (b : byte) : Z := Z.of_N (Byte.to_N b).

Fixpoint b64encode (bs : list byte) : string :=
  match bs with
  | [] => EmptyString
  | [a] =>
      let x := byte_val a in
      String (b64_char (x / 4))
        (String (b64_char (x mod 4 * 16)) "==")
  | [a; b] =>
      let x := byte_val a in
      let y := byte_val b in
      String (b64_char (x / 4))
        (String (b64_char (x mod 4 * 16 + y / 16))
           (String (b64_char (y mod 16 * 4)) "="))
  | a :: b :: c :: rest =>
      let x := byte_val a in
      let y := byte_val b in
      let z := byte_val c in
      String (b64_char (x / 4))
        (String (b64_char (x mod 4 * 16 + y / 16))
           (String (b64_char (y mod 16 * 4 + z / 64))
              (String (b64_char (z mod 64)) (b64encode rest))))
  end.

(** ** The outside world *)

(** What one http exchange comes to, as the code tells the cases apart:
    the client call raised, [raise_for_status()] raised, or a response body
    is at hand. *)
Inductive outcome (A : Type) : Type :=
| RequestFailed (e : exn)
| StatusRejected (status_code : Z)
| Responded (body : A).
Arguments RequestFailed {A} e.
Arguments StatusRejected {A} status_code.
Arguments Responded {A} body.

(** The services and interpreter functions the module relies on, over a
    world state [W] that each exchange may change.  A JSON service answers
    [Responded None] when its body is not JSON ([response.json()] raises). *)
Record services (W : Type) : Type := mkServices {
  WEATHER_API_KEY : string;
  json_loads : string -> option json;
  exn_str : exn -> string;
  format_value : json -> string;
  stt_post : list byte -> W -> outcome (option json) * W;
  llm_post : json -> W -> outcome (option json) * W;
  tts_post : json -> W -> outcome (list byte) * W;
  weather_get : json -> W -> outcome (option json) * W;
  ws_send : json -> W -> option exn * W
}.

(** One line of the record of external requests, in the order issued. *)
Inductive call : Type :=
| CallSTT (audio : list byte)
| CallLLM (payload : json)
| CallTTS (payload : json)
| CallWeather (params : json)
| ExecTool (tool_name : json) (arguments : json).

(** The session: the assistant's history, the handler's buffer, the frames
    delivered to the client and the requests issued (both oldest first),
    and the world. *)
Record state (W : Type) : Type := mkState {
  conversation_history : list json;
  audio_buffer : list byte;
  sent : list json;
  calls : list call;
  world : W
}.

(** ** The state-and-exception monad *)

Section Backend.

Variable W : Type.
Variable E : services W.

Definition M (A : Type) : Type := state W -> result A * state W.

Definition ret {A : Type} (a : A) : M A := fun st => (Ok a, st).

Definition raise_ {A : Type} (e : exn) : M A := fun st => (Raise e, st).

Definition bind {A B : Type} (m : M A) (k : A -> M B) : M B :=
  fun st =>
    match m st with
    | (Ok a, st') => k a st'
    | (Raise e, st') => (Raise e, st')
    end.

(** [try: m  except Exception as e: handler e] *)
Definition try_except {A : Type} (m : M A) (handler : exn -> M A) : M A :=
  fun st =>
    match m st with
    | (Ok a, st') => (Ok a, st')
    | (Raise e, st') => handler e st'
    end.

Definition lift {A : Type} (r : result A) : M A := fun st => (r, st).

Notation "x <- m ;; k" := (bind m (fun x => k))
  (at level 61, m at next level, right associativity).
Notation "m ;;; k" := (bind m (fun _ => k))
  (at level 61, right associativity).

Definition get_history : M (list json) :=
  fun st => (Ok (conversation_history st), st).

Definition set_history (h : list json) : M unit :=
  fun st => (Ok tt, mkState h (audio_buffer st) (sent st) (calls st) (world st)).

Definition append_history (entry : json) : M unit :=
  fun st =>
    (Ok tt, mkState (conversation_history st ++ [entry]) (audio_buffer st)
              (sent st) (calls st) (world st)).

Definition get_buffer : M (list byte) :=
  fun st => (Ok (audio_buffer st), st).

Definition set_buffer (b : list byte) : M unit :=
  fun st =>
    (Ok tt, mkState (conversation_history st) b (sent st) (calls st) (world st)).

Definition record_call (c : call) : M unit :=
  fun st =>
    (Ok tt, mkState (conversation_history st) (audio_buffer st) (sent st)
              (calls st ++ [c]) (world st)).

(** One http exchange followed by [response.raise_for_status()]. *)
Definition exchange {A : Type} (c : call) (svc : W -> outcome A * W) : M A :=
  fun st =>
    let (o, w) := svc (world st) in
    let st' := mkState (conversation_history st) (audio_buffer st) (sent st)
                 (calls st ++ [c]) w in
    match o with
    | RequestFailed e => (Raise e, st')
    | StatusRejected code => (Raise (HTTPStatusError code), st')
    | Responded body => (Ok body, st')
    end.

(** [response.json()] *)
Definition response_json (body : option json) : result json :=
  match body with
  | Some j => Ok j
  | None => Raise JSONDecodeError
  end.

(** [json.loads(v)] *)
Definition loads (v : json) : result json :=
  match v with
  | JStr s =>
      match json_loads E s with
      | Some j => Ok j
      | None => Raise JSONDecodeError
      end
  | _ => Raise TypeError
  end.

(** A value interpolated in an f-string. *)
Definition fmt (v : json) : string :=
  match v with
  | JStr s => s
  | _ => format_value E v
  end.

(** [websocket.send_json(msg)] *)
Definition send_json (msg : json) : M unit :=
  fun st =>
    let (r, w) := ws_send E msg (world st) in
    match r with
    | None =>
        (Ok tt, mkState (conversation_history st) (audio_buffer st)
                  (sent st ++ [msg]) (calls st) w)
    | Some e =>
        (Raise e, mkState (conversation_history st) (audio_buffer st)
                    (sent st) (calls st) w)
    end.

(** ** VoiceAssistant *)

(** [v.strip()] *)
Definition str_strip (v : json) : result string :=
  match v with
  | JStr s => Ok (strip s)
  | _ => Raise AttributeError
  end.

Definition transcribe_audio (audio_data : list byte) : M (option string) :=
  try_except
    (body <- exchange (CallSTT audio_data) (stt_post E audio_data) ;;
     result <- lift (response_json body) ;;
     raw <- lift (dict_get result "text" (JStr "")) ;;
     text <- lift (str_strip raw) ;;
     ret (Some text))
    (fun _ => ret None).

Definition degree : string := String "194"%char (String "176"%char EmptyString).

Definition msg_no_key : string :=
  "Weather API key not configured. Please set WEATHER_API_KEY environment variable.".

Definition get_weather (location : json) : M string :=
  try_except
    (if String.eqb (WEATHER_API_KEY E) "" then ret msg_no_key
     else
       let params :=
         JObj [("q", location); ("appid", JStr (WEATHER_API_KEY E));
               ("units", JStr "metric")] in
       body <- exchange (CallWeather params) (weather_get E params) ;;
       data <- lift (response_json body) ;;
       w_location <- lift (getitem data "name") ;;
       sys <- lift (getitem data "sys") ;;
       w_country <- lift (getitem sys "country") ;;
       main <- lift (getitem data "main") ;;
       w_temperature <- lift (getitem main "temp") ;;
       main <- lift (getitem data "main") ;;
       w_feels_like <- lift (getitem main "feels_like") ;;
       main <- lift (getitem data "main") ;;
       w_humidity <- lift (getitem main "humidity") ;;
       weather <- lift (getitem data "weather") ;;
       weather0 <- lift (getitem0 weather) ;;
       w_description <- lift (getitem weather0 "description") ;;
       wind <- lift (getitem data "wind") ;;
       w_wind_speed <- lift (getitem wind "speed") ;;
       ret ("Current weather in " ++ fmt w_location ++ ", " ++ fmt w_country
            ++ ": " ++ fmt w_description ++ ". "
            ++ "Temperature: " ++ fmt w_temperature ++ degree
            ++ "C (feels like " ++ fmt w_feels_like ++ degree ++ "C). "
            ++ "Humidity: " ++ fmt w_humidity ++ "%. "
            ++ "Wind speed: " ++ fmt w_wind_speed ++ " m/s.")%string)
    (fun e =>
       match e with
       | HTTPStatusError code =>
           if code =? 404
           then ret ("Location '" ++ fmt location
                     ++ "' not found. Please check the city name.")%string
           else ret ("Error fetching weather: " ++ exn_str E e)%string
       | _ => ret ("Unable to fetch weather data: " ++ exn_str E e)%string
       end).

Definition execute_tool_call (tool_name arguments : json) : M string :=
  record_call (ExecTool tool_name arguments) ;;;
  if eq_str tool_name "get_weather"
  then
    location <- lift (dict_get arguments "location" (JStr "")) ;;
    get_weather location
  else ret ("Unknown tool: " ++ fmt tool_name)%string.

(** The module constant [TOOLS]. *)
Definition TOOLS : json :=
  JArr [JObj [
    ("type", JStr "function");
    ("function", JObj [
      ("name", JStr "get_weather");
      ("description", JStr "Get the current weather for a specific location. Use this when the user asks about weather conditions.");
      ("parameters", JObj [
        ("type", JStr "object");
        ("properties", JObj [
          ("location", JObj [
            ("type", JStr "string");
            ("description", JStr "The city name or location (e.g., 'Tokyo', 'London, UK', 'New York')")])]);
        ("required", JArr [JStr "location"])])])]].

Definition system_prompt_tools : string :=
  "You are a helpful voice assistant. Keep responses concise and natural for voice output. When the user asks about weather, use the get_weather tool to provide accurate current information.".

Definition system_prompt_plain : string :=
  "You are a helpful voice assistant. Keep responses concise and natural for voice output.".

Definition system_message (content : string) : json :=
  JObj [("role", JStr "system"); ("content", JStr content)].

(** The request body: the system message, then the whole history. *)
Definition chat_payload (system_prompt : string) (history : list json) : json :=
  JObj [("model", JStr "Qwen/Qwen2.5-7B-Instruct-GPTQ-Int4");
        ("messages", JArr (system_message system_prompt :: history));
        ("tools", TOOLS);
        ("tool_choice", JStr "auto");
        ("temperature", JFloat 0.7%float);
        ("max_tokens", JInt 150)].

Definition user_entry (user_message : string) : json :=
  JObj [("role", JStr "user"); ("content", JStr user_message)].

Definition tool_call_entry (tool_calls : json) : json :=
  JObj [("role", JStr "assistant"); ("content", JNull);
        ("tool_calls", tool_calls)].

Definition tool_result_entry (tool_call_id function_name : json)
    (tool_result : string) : json :=
  JObj [("role", JStr "tool"); ("tool_call_id", tool_call_id);
        ("name", function_name); ("content", JStr tool_result)].

Definition assistant_entry (assistant_message : json) : json :=
  JObj [("role", JStr "assistant"); ("content", assistant_message)].

Definition fallback_no_content : string :=
  "I'm not sure how to respond to that.".

Definition fallback_llm_error : string :=
  "I'm having trouble processing your request. Please try again.".

(** [history[-10:]], taken only when [len(history) > 10]. *)
Definition trim (history : list json) : list json :=
  if (10 <? length history)%nat
  then skipn (length history - 10) history
  else history.

(** One chat-completion request and [result["choices"][0]["message"]]. *)
Definition llm_message (system_prompt : string) : M json :=
  history <- get_history ;;
  let payload := chat_payload system_prompt history in
  body <- exchange (CallLLM payload) (llm_post E payload) ;;
  result <- lift (response_json body) ;;
  choices <- lift (getitem result "choices") ;;
  choice <- lift (getitem0 choices) ;;
  lift (getitem choice "message").

(** The [if message.get("tool_calls"):] block; it yields the follow-up
    message. *)
Definition tool_round (message : json) : M json :=
  tool_calls <- lift (getitem message "tool_calls") ;;
  tool_call <- lift (getitem0 tool_calls) ;;
  function <- lift (getitem tool_call "function") ;;
  function_name <- lift (getitem function "name") ;;
  function <- lift (getitem tool_call "function") ;;
  arguments <- lift (getitem function "arguments") ;;
  function_args <- lift (loads arguments) ;;
  tool_result <- execute_tool_call function_name function_args ;;
  tool_calls <- lift (getitem message "tool_calls") ;;
  append_history (tool_call_entry tool_calls) ;;;
  tool_call_id <- lift (getitem tool_call "id") ;;
  append_history (tool_result_entry tool_call_id function_name tool_result) ;;;
  llm_message system_prompt_plain.

(** The body of the [try] in [chat_with_llm]. *)
Definition chat_body (user_message : string) : M json :=
  append_history (user_entry user_message) ;;;
  message <- llm_message system_prompt_tools ;;
  requested <- lift (dict_get message "tool_calls" JNull) ;;
  message <- (if truthy requested then tool_round message else ret message) ;;
  assistant_message <-
    lift (dict_get message "content" (JStr fallback_no_content)) ;;
  append_history (assistant_entry assistant_message) ;;;
  history <- get_history ;;
  set_history (trim history) ;;;
  ret assistant_message.

Definition chat_with_llm (user_message : string) : M json :=
  try_except (chat_body user_message)
    (fun _ => ret (JStr fallback_llm_error)).

(** [text[:50]] *)
Definition slice50 (text : json) : result json :=
  match text with
  | JStr s => Ok (JStr (substring 0 50 s))
  | JArr xs => Ok (JArr (firstn 50 xs))
  | _ => Raise TypeError
  end.

Definition tts_payload (text : json) : json :=
  JObj [("model", JStr "kokoro"); ("input", text); ("voice", JStr "af_sky");
        ("response_format", JStr "mp3"); ("speed", JFloat 1.0%float)].

Definition text_to_speech (text : json) : M (option (list byte)) :=
  try_except
    (let payload := tts_payload text in
     lift (slice50 text) ;;;
     audio_data <- exchange (CallTTS payload) (tts_post E payload) ;;
     ret (Some audio_data))
    (fun _ => ret None).

Definition process_voice_input (audio_data : list byte)
    : M (option (list byte)) :=
  try_except
    (text <- transcribe_audio audio_data ;;
     match text with
     | None => ret None
     | Some t =>
         if String.eqb t "" then ret None
         else
           response_text <- chat_with_llm t ;;
           text_to_speech response_text
     end)
    (fun _ => ret None).

(** ** The websocket handler *)

(** What [websocket.receive()] hands over: a message with a ["bytes"] key,
    one with a ["text"] key, or one with neither. *)
Inductive frame : Type :=
| Binary (data : list byte)
| Text (data : string)
| Neither.

Definition status_event (status : string) : json :=
  JObj [("type", JStr "status"); ("status", JStr status)].

Definition audio_response_event (audio_response : list byte) : json :=
  JObj [("type", JStr "audio_response");
        ("audio", JStr (b64encode audio_response));
        ("format", JStr "mp3")].

Definition error_event : json :=
  JObj [("type", JStr "error"); ("message", JStr "Failed to process audio")].

(** The [audio_end] branch; [if audio_response:] holds for a non-empty
    byte string only. *)
Definition on_audio_end : M unit :=
  buffer <- get_buffer ;;
  if (0 <? length buffer)%nat
  then
    send_json (status_event "processing") ;;;
    audio_response <- process_voice_input buffer ;;
    set_buffer [] ;;;
    (match audio_response with
     | Some (b :: bs) =>
         try_except (send_json (audio_response_event (b :: bs)))
           (fun _ => ret tt)
     | _ => send_json error_event
     end) ;;;
    send_json (status_event "ready")
  else ret tt.

(** The [reset] branch. *)
Definition on_reset : M unit :=
  set_history [] ;;;
  set_buffer [] ;;;
  send_json (status_event "reset_complete").

(** One turn of the [while True] loop, after [receive()] returned. *)
Definition on_frame (data : frame) : M unit :=
  match data with
  | Binary chunk =>
      buffer <- get_buffer ;;
      set_buffer (buffer ++ chunk)
  | Text text =>
      message <- lift (loads (JStr text)) ;;
      type <- lift (dict_get message "type" JNull) ;;
      if eq_str type "audio_end" then on_audio_end
      else
        type <- lift (dict_get message "type" JNull) ;;
        if eq_str type "reset" then on_reset else ret tt
  | Neither => ret tt
  end.

(** The loop over the frames the client sends; when they run out the
    next [receive()] raises. *)
Fixpoint serve (frames : list frame) : M unit :=
  match frames with
  | [] => raise_ WebSocketDisconnect
  | data :: rest => on_frame data ;;; serve rest
  end.

(** [websocket_endpoint]: a fresh assistant and buffer, the loop, and both
    [except] clauses, which only log.  The [finally] clause closes the http
    client, which no later step uses. *)
Definition initial_state (w : W) : state W := mkState [] [] [] [] w.

Definition websocket_endpoint (frames : list frame) (w : W) : state W :=
  snd (try_except (serve frames) (fun _ => ret tt) (initial_state w)).

End Backend.

Arguments M W A : clear implicits.

(** ** Observations on a session *)

Fixpoint llm_calls (cs : list call) : nat :=
  match cs with
  | [] => 0
  | CallLLM _ :: rest => S (llm_calls rest)
  | _ :: rest => llm_calls rest
  end.

Fixpoint tool_runs (cs : list call) : list (json * json) :=
  match cs with
  | [] => []
  | ExecTool tool_name arguments :: rest =>
      (tool_name, arguments) :: tool_runs rest
  | _ :: rest => tool_runs rest
  end.

(** The texts handed to the synthesis service, in order. *)
Definition tts_input (payload : json) : list json :=
  match payload with
  | JObj kvs => match lookup "input" kvs with Some text => [text] | None => [] end
  | _ => []
  end.

Fixpoint tts_inputs (cs : list call) : list json :=
  match cs with
  | [] => []
  | CallTTS payload :: rest => tts_input payload ++ tts_inputs rest
  | _ :: rest => tts_inputs rest
  end.

(** The ["role"] of a history entry. *)
Definition role (entry : json) : option json :=
  match entry with
  | JObj kvs => lookup "role" kvs
  | _ => None
  end.

Definition is_system (entry : json) : bool :=
  match role entry with
  | Some r => eq_str r "system"
  | None => false
  end.

(** An assistant entry that records tool calls and has no text. *)
Definition is_invocation (entry : json) : bool :=
  match entry with
  | JObj kvs =>
      match lookup "role" kvs, lookup "content" kvs, lookup "tool_calls" kvs with
      | Some r, Some JNull, Some _ => eq_str r "assistant"
      | _, _, _ => false
      end
  | _ => false
  end.

(** The correlation id an invocation entry asks an answer for: the id of
    its first tool call. *)
Definition invocation_id (entry : json) : option json :=
  match entry with
  | JObj kvs =>
      match lookup "tool_calls" kvs with
      | Some (JArr (JObj call_kvs :: _)) => lookup "id" call_kvs
      | _ => None
      end
  | _ => None
  end.

(** A tool-result entry answering correlation id [id]. *)
Definition answers (id : json) (entry : json) : Prop :=
  match entry with
  | JObj kvs =>
      lookup "role" kvs = Some (JStr "tool") /\
      lookup "tool_call_id" kvs = Some id
  | _ => False
  end.

(** Every invocation entry of the history is directly followed by the
    tool result for its correlation id. *)
Fixpoint paired (history : list json) : Prop :=
  match history with
  | [] => True
  | entry :: rest =>
      (is_invocation entry = true ->
         match rest with
         | next :: _ =>
             exists id, invocation_id entry = Some id /\ answers id next
         | [] => False
         end) /\
      paired rest
  end.

(** The answer of the chat-completion service has the interface's shape
    and its first choice holds the message [message]. *)
Definition carries_message (o : outcome (option json))
    (message : list (string * json)) : Prop :=
  exists body choice others,
    o = Responded (Some (JObj body)) /\
    lookup "choices" body = Some (JArr (JObj choice :: others)) /\
    lookup "message" choice = Some (JObj message).

(** The message asks for no tool: it has no tool calls, or an empty or
    null list of them. *)
Definition requests_no_tool (message : list (string * json)) : Prop :=
  match lookup "tool_calls" message with
  | Some v => truthy v = false
  | None => True
  end.

(** The message lists at least one tool call, and the first one has the
    interface's shape: an id and a function with a name and JSON-encoded
    arguments (a mapping, when the tool is get_weather). *)
Definition requests_tool (W : Type) (E : services W)
    (message : list (string * json)) (name args : json) : Prop :=
  exists call more fn text id,
    lookup "tool_calls" message = Some (JArr (JObj call :: more)) /\
    lookup "function" call = Some (JObj fn) /\
    lookup "name" fn = Some name /\
    lookup "arguments" fn = Some (JStr text) /\
    json_loads E text = Some args /\
    (eq_str name "get_weather" = true -> exists kvs, args = JObj kvs) /\
    lookup "id" call = Some id.

(** The message lists at least one tool call, whatever its shape. *)
Definition lists_tool_call (message : list (string * json)) : Prop :=
  exists call more,
    lookup "tool_calls" message = Some (JArr (call :: more)).

(** The specification's wording of the second request: whenever the first
    answer lists a tool call, the reasoning step issues exactly two
    chat-completion requests. *)
Definition two_requests_when_tool_listed (W : Type) (E : services W)
    (text : string) (st : state W) : Prop :=
  forall message,
    carries_message
      (fst (llm_post E
              (chat_payload system_prompt_tools
                 (conversation_history st ++ [user_entry text])) (world st)))
      message ->
    lists_tool_call message ->
    llm_calls (calls (snd (chat_with_llm E text st))) =
      (llm_calls (calls st) + 2)%nat.

(** The ways one call of [chat_body] can end: its result, the entries it
    appended, the number of chat-completion requests it issued and the tool
    runs it started. *)
Inductive turn (text : string)
  : result json -> list json -> nat -> list (json * json) -> Prop :=
| turn_first_failed : forall e runs,
    (length runs <= 1)%nat ->
    turn text (Raise e) [user_entry text] 1 runs
| turn_unanswered : forall e tool_calls tool_call name args,
    getitem0 tool_calls = Ok tool_call ->
    getitem tool_call "id" = Raise e ->
    turn text (Raise e)
      [user_entry text; tool_call_entry tool_calls] 1 [(name, args)]
| turn_followup_failed : forall e tool_calls tool_call id name args output,
    getitem0 tool_calls = Ok tool_call ->
    getitem tool_call "id" = Ok id ->
    turn text (Raise e)
      [user_entry text; tool_call_entry tool_calls;
       tool_result_entry id name output] 2 [(name, args)]
| turn_plain : forall reply,
    turn text (Ok reply) [user_entry text; assistant_entry reply] 1 []
| turn_with_tool : forall reply tool_calls tool_call id name args output,
    getitem0 tool_calls = Ok tool_call ->
    getitem tool_call "id" = Ok id ->
    turn text (Ok reply)
      [user_entry text; tool_call_entry tool_calls;
       tool_result_entry id name output; assistant_entry reply]
      2 [(name, args)].

(** [text[:50]] succeeds on strings and lists only. *)
Definition sliceable (text : json) : bool :=
  match text with
  | JStr _ | JArr _ => true
  | _ => false
  end.

(** What an operation may leave in the history [h']: nothing, or the old
    history [h] with non-system entries appended, whole or cut down to its
    last ten entries. *)
Definition stored_by (h h' : list json) : Prop :=
  h' = [] \/
  exists added,
    Forall (fun entry => is_system entry = false) added /\
    (h' = h ++ added \/
     ((10 < length (h ++ added))%nat /\
      h' = skipn (length (h ++ added) - 10) (h ++ added) /\
      length h' = 10%nat)).

(** The websocket accepts every frame it is given. *)
Definition accepts_all (W : Type) (E : services W) : Prop :=
  forall (msg : json) (w : W), fst (ws_send E msg w) = None.

(** A turn-end frame [text] arriving in session state [st] starts a turn
    whose transcription comes back as the empty string. *)
Definition hears_nothing (W : Type) (E : services W) (text : string)
    (st : state W) : Prop :=
  (exists kvs, json_loads E text = Some (JObj kvs) /\
               lookup "type" kvs = Some (JStr "audio_end")) /\
  audio_buffer st <> [] /\
  fst (transcribe_audio E (audio_buffer st)
         (snd (send_json E (status_event "processing") st))) =
    Ok (Some EmptyString).

(** The reading of an empty transcription as a silent turn: no frame is
    sent to the client for that turn-end. *)
Definition silent_when_nothing_heard (W : Type) (E : services W)
    (text : string) (st : state W) : Prop :=
  hears_nothing E text st ->
  sent (snd (on_frame E (Text text) st)) = sent st.

(** The frames the handler sends in answer to a turn-end: the error frame
    or an audio response with some audio in it. *)
Definition is_terminal (msg : json) : Prop :=
  msg = error_event \/
  exists audio, audio <> [] /\ msg = audio_response_event audio.

(** The frames the handler ever sends. *)
Definition known_event (msg : json) : Prop :=
  msg = status_event "processing" \/
  msg = status_event "ready" \/
  msg = status_event "reset_complete" \/
  is_terminal msg.

(** A log of sent frames made of whole answers: processing, terminal,
    ready for a turn, and reset_complete for a reset. *)
Inductive well_sequenced : list json -> Prop :=
| sequenced_nil : well_sequenced []
| sequenced_turn : forall log terminal,
    well_sequenced log -> is_terminal terminal ->
    well_sequenced
      (log ++ [status_event "processing"; terminal; status_event "ready"])
| sequenced_reset : forall log,
    well_sequenced log ->
    well_sequenced (log ++ [status_event "reset_complete"]).

(** The terminal frame that answers a pipeline outcome. *)
Definition terminal_for (out : option (list byte)) : json :=
  match out with
  | Some (b :: bs) => audio_response_event (b :: bs)
  | _ => error_event
  end.

(** The audio handed to the transcription service, in order. *)
Fixpoint stt_audios (cs : list call) : list (list byte) :=
  match cs with
  | [] => []
  | CallSTT audio :: rest => audio :: stt_audios rest
  | _ :: rest => stt_audios rest
  end.

(** The parameters of the weather requests, in order. *)
Fixpoint weather_requests (cs : list call) : list json :=
  match cs with
  | [] => []
  | CallWeather params :: rest => params :: weather_requests rest
  | _ :: rest => weather_requests rest
  end.

(** The session state with its buffer replaced. *)
Definition with_buffer (W : Type) (st : state W) (buffer : list byte)
    : state W :=
  mkState (conversation_history st) buffer (sent st) (calls st) (world st).


(** A text frame that is not JSON, or is JSON but not an object. *)
Definition malformed (W : Type) (E : services W) (text : string) : Prop :=
  match json_loads E text with
  | Some (JObj _) => False
  | _ => True
  end.

(** The parameters of one weather request. *)
Definition weather_params (W : Type) (E : services W) (location : json)
    : json :=
  JObj [("q", location); ("appid", JStr (WEATHER_API_KEY E));
        ("units", JStr "metric")].

(** The requests one weather lookup issues: none without a credential,
    one otherwise. *)
Definition weather_log (W : Type) (E : services W) (location : json)
    : list call :=
  if String.eqb (WEATHER_API_KEY E) EmptyString then []
  else [CallWeather (weather_params E location)].

(** What one tool run adds to the record of requests. *)
Definition tool_log (W : Type) (E : services W) (tool_name arguments : json)
    : list call :=
  ExecTool tool_name arguments ::
  match arguments with
  | JObj kvs =>
      if eq_str tool_name "get_weather"
      then weather_log E
             match lookup "location" kvs with
             | Some location => location
             | None => JStr EmptyString
             end
      else []
  | _ => []
  end.

(** What the reasoning step adds to the record after its first request,
    for a turn that started from history [h] with utterance [text]: nothing;
    or one tool run; or one tool run and the follow-up request, whose
    messages are the history with the user entry, the tool-call entry and
    the tool result. *)
Inductive reasoning_log (W : Type) (E : services W) (h : list json)
    (text : string) : list call -> Prop :=
| log_plain : reasoning_log E h text []
| log_tool_only : forall tool_name arguments,
    reasoning_log E h text (tool_log E tool_name arguments)
| log_follow_up : forall tool_name arguments tool_calls id output,
    reasoning_log E h text
      (tool_log E tool_name arguments ++
       [CallLLM
          (chat_payload system_prompt_plain
             (h ++ [user_entry text; tool_call_entry tool_calls;
                    tool_result_entry id tool_name output]))]).

(** What the synthesis step adds to the record for reply [reply]. *)
Definition speech_log (reply : json) : list call :=
  if sliceable reply then [CallTTS (tts_payload reply)] else [].

(** The lines of the record that are requests to a service. *)
Definition is_request (c : call) : bool :=
  match c with
  | ExecTool _ _ => false
  | _ => true
  end.


(** The websocket accepts every frame but, possibly, those of type
    audio_response. *)
Definition accepts_all_but_audio (W : Type) (E : services W) : Prop :=
  forall (msg : json) (w : W),
    (exists kvs, msg = JObj kvs /\
                 lookup "type" kvs = Some (JStr "audio_response")) \/
    fst (ws_send E msg w) = None.

(** The message's first tool call asks for get_weather with arguments
    that decode to [args]. *)
Definition asks_weather_with (W : Type) (E : services W)
    (message : list (string * json)) (args : option json) : Prop :=
  exists call more fn text,
    lookup "tool_calls" message = Some (JArr (JObj call :: more)) /\
    lookup "function" call = Some (JObj fn) /\
    lookup "name" fn = Some (JStr "get_weather") /\
    lookup "arguments" fn = Some (JStr text) /\
    json_loads E text = args.


(** ** Sample worlds

    Concrete services for the examples.  The world is the list of answers
    the chat-completion service still has to give; the other services answer
    the same way each time, and the websocket accepts every frame. *)
Module Sample.

Definition dq : string := String "034"%char EmptyString.

Definition quoted (s : string) : string := (dq ++ s ++ dq)%string.

(** The JSON text of an object with one string member. *)
Definition object_text (k v : string) : string :=
  ("{" ++ quoted k ++ ": " ++ quoted v ++ "}")%string.

Definition audio_end_text : string := object_text "type" "audio_end".
Definition reset_text : string := object_text "type" "reset".
Definition tokyo_text : string := object_text "location" "Tokyo".
Definition no_location_text : string := "{}".

(** [json.loads] on the texts above; any other text is answered as
    undecodable. *)
Definition sample_loads (s : string) : option json :=
  if String.eqb s audio_end_text then Some (JObj [("type", JStr "audio_end")])
  else if String.eqb s reset_text then Some (JObj [("type", JStr "reset")])
  else if String.eqb s tokyo_text then Some (JObj [("location", JStr "Tokyo")])
  else if String.eqb s no_location_text then Some (JObj [])
  else None.

Definition sample_exn_str (e : exn) : string :=
  match e with
  | KeyError (JStr k) => ("'" ++ k ++ "'")%string
  | KeyError _ => "0"
  | IndexError => "list index out of range"
  | TypeError => "unsupported operand"
  | AttributeError => "object has no attribute"
  | JSONDecodeError => "Expecting value"
  | HTTPStatusError _ => "Client error for url"
  | RequestError detail => detail
  | WebSocketDisconnect => EmptyString
  | RuntimeError detail => detail
  end.

Definition sample_format (v : json) : string :=
  match v with
  | JNull => "None"
  | JBool true => "True"
  | JBool false => "False"
  | JStr s => s
  | _ => "..."
  end.

Definition script : Type := list (outcome (option json)).

Definition next_answer (_ : json) (w : script)
    : outcome (option json) * script :=
  match w with
  | [] => (RequestFailed (RequestError "connection refused"), [])
  | answer :: rest => (answer, rest)
  end.

Definition sample_services (key : string) (stt weather : outcome (option json))
    (tts : outcome (list byte)) : services script :=
  mkServices key sample_loads sample_exn_str sample_format
    (fun _ w => (stt, w))
    next_answer
    (fun _ w => (tts, w))
    (fun _ w => (weather, w))
    (fun _ w => (None, w)).

Definition heard (text : string) : outcome (option json) :=
  Responded (Some (JObj [("text", JStr text)])).

Definition completion (message : json) : outcome (option json) :=
  Responded (Some (JObj [("choices", JArr [JObj [("message", message)]])])).

Definition says (content : string) : json :=
  JObj [("role", JStr "assistant"); ("content", JStr content)].

Definition wants_tool (tool_call : json) : json :=
  JObj [("role", JStr "assistant"); ("content", JNull);
        ("tool_calls", JArr [tool_call])].

Definition weather_call (id : string) (arguments : string) : json :=
  JObj [("id", JStr id); ("type", JStr "function");
        ("function", JObj [("name", JStr "get_weather");
                           ("arguments", JStr arguments)])].

Definition unavailable : outcome (option json) :=
  RequestFailed (RequestError "connection refused").

Definition mp3 : list byte := [x49; x44; x33].

(** A tool call that lacks its id. *)
Definition anonymous_call (arguments : string) : json :=
  JObj [("type", JStr "function");
        ("function", JObj [("name", JStr "get_weather");
                           ("arguments", JStr arguments)])].

(** Speech is heard as "hello", synthesis answers three bytes, no weather
    credential is set. *)
Definition hello_services : services script :=
  sample_services EmptyString (heard "hello") unavailable (Responded mp3).

(** Nothing is heard: the transcription is the empty string. *)
Definition silence_services : services script :=
  sample_services EmptyString (heard EmptyString) unavailable (Responded mp3).

(** A session that has buffered one byte of audio. *)
Definition one_byte (w : script) : state script :=
  mkState [] [x01] [] [] w.

Definition one_turn : list frame := [Binary [x01]; Text audio_end_text].

Definition turns (n : nat) : list frame := concat (repeat one_turn n).

(** The service asks for the weather twice in a row. *)
Definition insists : script :=
  [completion (wants_tool (weather_call "call_1" tokyo_text));
   completion (wants_tool (weather_call "call_2" tokyo_text))].

(** The service answers a message whose content is null. *)
Definition null_reply : script :=
  [completion (JObj [("role", JStr "assistant"); ("content", JNull)])].

(** The service asks for a tool without giving the call an id. *)
Definition forgets_id : script :=
  [completion (wants_tool (anonymous_call tokyo_text))].

(** The service answers in plain text. *)
Definition greets : script := [completion (says "hi there")].


(** The service asks for the weather with arguments that are not JSON. *)
Definition garbles : script :=
  [completion (wants_tool (weather_call "call_1" "not json"))].

(** A space, a no-break space (U+00A0) and an em space (U+2003). *)
Definition blanks : string :=
  String " "
    (String "194" (String "160"
       (String "226" (String "128" (String "131" EmptyString))))).

(** Only white space is heard. *)
Definition blank_services : services script :=
  sample_services EmptyString (heard blanks) unavailable (Responded mp3).

(** A weather credential is set and the weather service knows no such
    place. *)
Definition keyed_services : services script :=
  sample_services "secret" (heard "hello") (StatusRejected 404)
    (Responded mp3).

(** A websocket that refuses the frames of type audio_response. *)
Definition refuses_audio (msg : json) (w : script) : option exn * script :=
  match msg with
  | JObj kvs =>
      match lookup "type" kvs with
      | Some (JStr t) =>
          if String.eqb t "audio_response"
          then (Some (RuntimeError "cannot send"), w)
          else (None, w)
      | _ => (None, w)
      end
  | _ => (None, w)
  end.

Definition deaf_services : services script :=
  mkServices EmptyString sample_loads sample_exn_str sample_format
    (fun _ w => (heard "hello", w))
    next_answer
    (fun _ w => (Responded mp3, w))
    (fun _ w => (unavailable, w))
    refuses_audio.

(** A session after one answered turn, with one byte buffered again. *)
Definition greeted : state script :=
  snd (chat_with_llm hello_services "hello" (one_byte greets)).

(** Eleven turns whose reasoning request failed, with an answer to come. *)
Definition overgrown : state script :=
  websocket_endpoint hello_services (turns 11)
    (repeat unavailable 11 ++ greets).

End Sample.

(** ** Properties *)

Section Properties.

Variable W : Type.
Variable E : services W.

Arguments getitem : simpl never.
Arguments getitem0 : simpl never.
Arguments dict_get : simpl never.
Arguments loads : simpl never.
Arguments response_json : simpl never.
Arguments truthy : simpl never.
Arguments eq_str : simpl never.
Arguments String.append : simpl never.
Arguments fmt : simpl never.
Arguments trim : simpl never.
Arguments get_weather : simpl never.
Arguments execute_tool_call : simpl never.
Arguments chat_payload : simpl never.
Arguments tts_payload : simpl never.
Arguments slice50 : simpl never.
Arguments str_strip : simpl never.

(** Case analysis on the innermost scrutinee, as the interpreter would
    branch. *)
Ltac destruct_match :=
  match goal with
  | |- context [match ?x with _ => _ end] =>
      lazymatch x with
      | context [match _ with _ => _ end] => fail
      | _ => destruct x eqn:?
      end
  end.

Ltac run := cbn; repeat (destruct_match; cbn).

Lemma append_nonempty : forall (c : ascii) (s t : string),
  (String c s ++ t)%string <> EmptyString.
Proof. intros c s t; cbn; discriminate. Qed.

Lemma llm_calls_app : forall cs ds,
  llm_calls (cs ++ ds) = (llm_calls cs + llm_calls ds)%nat.
Proof.
  induction cs as [|c cs IH]; intros ds; [reflexivity|].
  destruct c; cbn; rewrite IH; reflexivity.
Qed.

Lemma tool_runs_app : forall cs ds,
  tool_runs (cs ++ ds) = tool_runs cs ++ tool_runs ds.
Proof.
  induction cs as [|c cs IH]; intros ds; [reflexivity|].
  destruct c; cbn; rewrite IH; reflexivity.
Qed.

Lemma tts_inputs_app : forall cs ds,
  tts_inputs (cs ++ ds) = tts_inputs cs ++ tts_inputs ds.
Proof.
  induction cs as [|c cs IH]; intros ds; [reflexivity|].
  destruct c; cbn; rewrite IH, ?app_assoc; reflexivity.
Qed.

(** *** The weather tool *)

Lemma get_weather_total : forall (location : json) (st : state W),
  exists text st',
    get_weather E location st = (Ok text, st') /\ text <> EmptyString.
Proof.
  intros location st.
  unfold get_weather, try_except, bind, lift, ret, exchange.
  run; eexists; eexists; (split; [reflexivity|]);
    solve [apply append_nonempty | discriminate | congruence].
Qed.

(** What a weather lookup may touch: only the request log (by at most one
    weather request) and the world. *)
Lemma get_weather_effect : forall (location : json) (st : state W),
  let st' := snd (get_weather E location st) in
  conversation_history st' = conversation_history st /\
  audio_buffer st' = audio_buffer st /\
  sent st' = sent st /\
  llm_calls (calls st') = llm_calls (calls st) /\
  tool_runs (calls st') = tool_runs (calls st) /\
  tts_inputs (calls st') = tts_inputs (calls st).
Proof.
  intros location st.
  unfold get_weather, try_except, bind, lift, ret, exchange.
  run; rewrite ?llm_calls_app, ?tool_runs_app, ?tts_inputs_app; cbn;
    rewrite ?Nat.add_0_r, ?app_nil_r; auto 10.
Qed.

Lemma get_weather_no_key : forall (location : json) (st : state W),
  WEATHER_API_KEY E = EmptyString ->
  get_weather E location st = (Ok msg_no_key, st).
Proof.
  intros location st Hkey.
  unfold get_weather, try_except. rewrite Hkey. reflexivity.
Qed.

Lemma get_weather_not_found : forall (location : json) (st : state W),
  WEATHER_API_KEY E <> EmptyString ->
  fst (weather_get E
         (JObj [("q", location); ("appid", JStr (WEATHER_API_KEY E));
                ("units", JStr "metric")]) (world st)) = StatusRejected 404 ->
  fst (get_weather E location st) =
    Ok ("Location '" ++ fmt E location
        ++ "' not found. Please check the city name.")%string.
Proof.
  intros location st Hkey H404.
  unfold get_weather, try_except, bind, lift, ret, exchange.
  apply String.eqb_neq in Hkey. rewrite Hkey.
  destruct (weather_get E _ (world st)) as [o w']. cbn in H404. subst o.
  reflexivity.
Qed.

Lemma execute_tool_call_effect : forall (tool_name arguments : json)
    (st : state W),
  let st' := snd (execute_tool_call E tool_name arguments st) in
  conversation_history st' = conversation_history st /\
  audio_buffer st' = audio_buffer st /\
  sent st' = sent st /\
  llm_calls (calls st') = llm_calls (calls st) /\
  tool_runs (calls st') = tool_runs (calls st) ++ [(tool_name, arguments)] /\
  tts_inputs (calls st') = tts_inputs (calls st).
Proof.
  intros tool_name arguments st.
  unfold execute_tool_call, record_call, bind, lift, ret.
  cbn. destruct (eq_str tool_name "get_weather"); cbn.
  - destruct (dict_get arguments "location" (JStr "")) as [location|e]; cbn.
    + match goal with
      | |- context [get_weather E location ?s] =>
          destruct (get_weather_effect location s)
            as (Hh & Hb & Hs & Hl & Ht & Hv);
          destruct (get_weather E location s) as [[text|e] st1]
      end; cbn in *;
        rewrite Hh, Hb, Hs, Hl, Ht, Hv, llm_calls_app, tool_runs_app,
          tts_inputs_app; cbn; rewrite ?Nat.add_0_r, ?app_nil_r; auto 10.
    + rewrite llm_calls_app, tool_runs_app, tts_inputs_app; cbn;
        rewrite ?Nat.add_0_r, ?app_nil_r; auto 10.
  - rewrite llm_calls_app, tool_runs_app, tts_inputs_app; cbn;
      rewrite ?Nat.add_0_r, ?app_nil_r; auto 10.
Qed.

(** C5. Tool execution is total on argument mappings: whatever the tool
    name, the mapping, the credential and the weather service's answer, the
    call returns a non-empty text and does not raise; a name other than
    get_weather yields the literal unknown-tool text. *)
Theorem execute_tool_call_total : forall (tool_name : json)
    (kvs : list (string * json)) (st : state W),
  exists text st',
    execute_tool_call E tool_name (JObj kvs) st = (Ok text, st') /\
    text <> EmptyString /\
    (eq_str tool_name "get_weather" = false ->
     text = ("Unknown tool: " ++ fmt E tool_name)%string).
Proof.
  intros tool_name kvs st.
  unfold execute_tool_call, record_call, bind, lift, ret. cbn.
  destruct (eq_str tool_name "get_weather") eqn:Hname.
  - unfold dict_get. cbn.
    match goal with
    | |- context [get_weather E ?l ?s] =>
        destruct (get_weather_total l s) as (text & st' & Hrun & Hne)
    end.
    exists text, st'. rewrite Hrun. repeat split; auto; discriminate.
  - do 2 eexists. split; [reflexivity|]. split; [apply append_nonempty|auto].
Qed.

(** C9. A get_weather request whose argument mapping has no location key
    does not fail: the weather capability runs with the empty string as the
    location, and its text is what the tool call returns. *)
Theorem missing_location_defaults_to_empty : forall
    (kvs : list (string * json)) (st : state W),
  lookup "location" kvs = None ->
  execute_tool_call E (JStr "get_weather") (JObj kvs) st =
    get_weather E (JStr "")
      (snd (record_call (ExecTool (JStr "get_weather") (JObj kvs)) st)) /\
  exists text st',
    execute_tool_call E (JStr "get_weather") (JObj kvs) st = (Ok text, st').
Proof.
  intros kvs st Hkey.
  assert (Hrun : execute_tool_call E (JStr "get_weather") (JObj kvs) st =
    get_weather E (JStr "")
      (snd (record_call (ExecTool (JStr "get_weather") (JObj kvs)) st))).
  { unfold execute_tool_call, record_call, bind, lift, ret, dict_get. cbn.
    rewrite Hkey. reflexivity. }
  split; [exact Hrun|]. rewrite Hrun.
  match goal with
  | |- context [get_weather E ?l ?s] =>
      destruct (get_weather_total l s) as (text & st' & Hw & _)
  end.
  eauto.
Qed.

(** *** The reasoning step *)

Ltac step :=
  match goal with
  | |- context [execute_tool_call E ?n ?a ?s] =>
      let H := fresh "Hexec" in
      pose proof (execute_tool_call_effect n a s) as H; cbn in H;
      destruct (execute_tool_call E n a s) as [[? | ?] ?]; cbn in H;
      destruct H as (? & ? & ? & ? & ? & ?)
  | _ => destruct_match
  end.

Ltac use_effects :=
  repeat match goal with
  | H : conversation_history ?s = _ |- context [conversation_history ?s] =>
      rewrite H
  | H : audio_buffer ?s = _ |- context [audio_buffer ?s] => rewrite H
  | H : sent ?s = _ |- context [sent ?s] => rewrite H
  | H : llm_calls (calls ?s) = _ |- context [llm_calls (calls ?s)] =>
      rewrite H
  | H : tool_runs (calls ?s) = _ |- context [tool_runs (calls ?s)] =>
      rewrite H
  | H : tts_inputs (calls ?s) = _ |- context [tts_inputs (calls ?s)] =>
      rewrite H
  end.

Ltac tidy :=
  rewrite ?llm_calls_app, ?tool_runs_app, ?tts_inputs_app; use_effects;
  rewrite ?llm_calls_app, ?tool_runs_app, ?tts_inputs_app; cbn;
  rewrite <- ?app_assoc, <- ?Nat.add_assoc; cbn.

Lemma chat_body_turn : forall (text : string) (st : state W),
  let r := fst (chat_body E text st) in
  let st' := snd (chat_body E text st) in
  exists added n runs,
    turn text r added n runs /\
    conversation_history st' =
      match r with
      | Ok _ => trim (conversation_history st ++ added)
      | Raise _ => conversation_history st ++ added
      end /\
    llm_calls (calls st') = (llm_calls (calls st) + n)%nat /\
    tool_runs (calls st') = tool_runs (calls st) ++ runs /\
    tts_inputs (calls st') = tts_inputs (calls st) /\
    sent st' = sent st /\
    audio_buffer st' = audio_buffer st.
Proof.
  intros text st.
  unfold chat_body, tool_round, llm_message, append_history, get_history,
    set_history, exchange, bind, lift, ret.
  cbn. repeat (step; cbn).
  all: tidy.
  all: do 3 eexists; (split; [ | repeat split;
         first [reflexivity | rewrite ?app_nil_r; reflexivity] ]).
  all: solve [econstructor; cbn; eauto].
Qed.

Arguments chat_body : simpl never.

Lemma chat_with_llm_run : forall (text : string) (st : state W),
  chat_with_llm E text st =
    (Ok match fst (chat_body E text st) with
        | Ok reply => reply
        | Raise _ => JStr fallback_llm_error
        end,
     snd (chat_body E text st)).
Proof.
  intros text st. unfold chat_with_llm, try_except, ret.
  destruct (chat_body E text st) as [[reply|e] st']; reflexivity.
Qed.

(** *** Transcription and synthesis *)

Lemma transcribe_audio_effect : forall (audio : list byte) (st : state W),
  exists text st',
    transcribe_audio E audio st = (Ok text, st') /\
    conversation_history st' = conversation_history st /\
    llm_calls (calls st') = llm_calls (calls st) /\
    tool_runs (calls st') = tool_runs (calls st) /\
    tts_inputs (calls st') = tts_inputs (calls st) /\
    sent st' = sent st /\
    audio_buffer st' = audio_buffer st.
Proof.
  intros audio st.
  unfold transcribe_audio, try_except, exchange, bind, lift, ret.
  run; do 2 eexists; (split; [reflexivity|]); cbn;
    rewrite ?llm_calls_app, ?tool_runs_app, ?tts_inputs_app; cbn;
    rewrite ?Nat.add_0_r, ?app_nil_r; auto 10.
Qed.

Lemma text_to_speech_effect : forall (text : json) (st : state W),
  exists audio st',
    text_to_speech E text st = (Ok audio, st') /\
    conversation_history st' = conversation_history st /\
    llm_calls (calls st') = llm_calls (calls st) /\
    tool_runs (calls st') = tool_runs (calls st) /\
    tts_inputs (calls st') =
      tts_inputs (calls st) ++ (if sliceable text then [text] else []) /\
    sent st' = sent st /\
    audio_buffer st' = audio_buffer st.
Proof.
  intros text st.
  unfold text_to_speech, try_except, exchange, bind, lift, ret, slice50.
  destruct text; run; do 2 eexists; (split; [reflexivity|]); cbn;
    rewrite ?llm_calls_app, ?tool_runs_app, ?tts_inputs_app; cbn;
    rewrite ?Nat.add_0_r, ?app_nil_r; auto 10.
Qed.

(** What a turn may do to the history: nothing, or what [chat_body] did. *)
Lemma process_voice_input_effect : forall (audio : list byte) (st : state W),
  exists out st',
    process_voice_input E audio st = (Ok out, st') /\
    sent st' = sent st /\
    audio_buffer st' = audio_buffer st /\
    (conversation_history st' = conversation_history st \/
     exists text st1,
       conversation_history st1 = conversation_history st /\
       conversation_history st' =
         conversation_history (snd (chat_body E text st1))).
Proof.
  intros audio st.
  unfold process_voice_input, try_except, bind, ret.
  destruct (transcribe_audio_effect audio st)
    as (text & st1 & Hrun & Hh & _ & _ & _ & Hs & Hb).
  rewrite Hrun. destruct text as [t|]; cbn.
  - destruct (String.eqb t ""); cbn.
    + do 2 eexists. split; [reflexivity|]. auto.
    + rewrite chat_with_llm_run.
      destruct (chat_body_turn t st1)
        as (added & n & runs & _ & _ & _ & _ & _ & Hs2 & Hb2).
      cbn in Hs2, Hb2.
      match goal with
      | |- context [text_to_speech E ?reply ?s] =>
          destruct (text_to_speech_effect reply s)
            as (out & st3 & Hrun3 & Hh3 & _ & _ & _ & Hs3 & Hb3)
      end.
      rewrite Hrun3. exists out, st3. split; [reflexivity|].
      split; [congruence|]. split; [congruence|].
      right. exists t, st1. split; [exact Hh|exact Hh3].
  - do 2 eexists. split; [reflexivity|]. auto.
Qed.

(** *** The session *)

Lemma send_json_ok : accepts_all E ->
  forall (msg : json) (st : state W),
  exists w,
    send_json E msg st =
      (Ok tt, mkState (conversation_history st) (audio_buffer st)
                (sent st ++ [msg]) (calls st) w).
Proof.
  intros Hsend msg st. unfold send_json.
  specialize (Hsend msg (world st)).
  destruct (ws_send E msg (world st)) as [r w]. cbn in Hsend. subst r.
  exists w. reflexivity.
Qed.

Lemma on_frame_audio_end : forall (text : string)
    (kvs : list (string * json)) (st : state W),
  json_loads E text = Some (JObj kvs) ->
  lookup "type" kvs = Some (JStr "audio_end") ->
  on_frame E (Text text) st = on_audio_end E st.
Proof.
  intros text kvs st Hloads Htype.
  unfold on_frame, bind, lift, loads, dict_get, eq_str.
  rewrite Hloads. cbn. rewrite Htype. reflexivity.
Qed.

(** C1. A turn-end message that finds audio in the buffer makes the
    session send the processing status, then exactly one terminal frame
    (the audio response or the error), then exactly one ready status, and
    leaves the buffer empty, whatever the pipeline did; the websocket is
    taken to accept the frames. *)
Theorem turn_end_emits_terminal_then_ready : forall (text : string)
    (kvs : list (string * json)) (st : state W),
  accepts_all E ->
  json_loads E text = Some (JObj kvs) ->
  lookup "type" kvs = Some (JStr "audio_end") ->
  audio_buffer st <> [] ->
  exists terminal st',
    on_frame E (Text text) st = (Ok tt, st') /\
    sent st' =
      sent st ++ [status_event "processing"; terminal; status_event "ready"] /\
    (terminal = error_event \/
     exists audio, audio <> [] /\ terminal = audio_response_event audio) /\
    audio_buffer st' = [].
Proof.
  intros text kvs st Hsend Hloads Htype Hbuf.
  rewrite (on_frame_audio_end text st Hloads Htype).
  unfold on_audio_end, bind, get_buffer, set_buffer, try_except, ret.
  destruct (audio_buffer st) as [|b bs] eqn:Hb; [congruence|]. cbn.
  destruct (send_json_ok Hsend (status_event "processing") st) as (w1 & H1).
  rewrite H1.
  match goal with
  | |- context [process_voice_input E ?a ?s] =>
      destruct (process_voice_input_effect a s)
        as (out & st2 & H2 & Hs2 & _ & _)
  end.
  rewrite H2. cbn in Hs2. cbn.
  destruct out as [[|a audio]|].
  - match goal with
    | |- context [send_json E error_event ?s] =>
        destruct (send_json_ok Hsend error_event s) as (w3 & H3)
    end.
    rewrite H3.
    match goal with
    | |- context [send_json E (status_event "ready") ?s] =>
        destruct (send_json_ok Hsend (status_event "ready") s) as (w4 & H4)
    end.
    rewrite H4. do 2 eexists. split; [reflexivity|]. cbn.
    rewrite Hs2, <- !app_assoc. cbn. auto.
  - match goal with
    | |- context [send_json E (audio_response_event ?x) ?s] =>
        destruct (send_json_ok Hsend (audio_response_event x) s)
          as (w3 & H3)
    end.
    rewrite H3.
    match goal with
    | |- context [send_json E (status_event "ready") ?s] =>
        destruct (send_json_ok Hsend (status_event "ready") s) as (w4 & H4)
    end.
    rewrite H4. do 2 eexists. split; [reflexivity|]. cbn.
    rewrite Hs2, <- !app_assoc. cbn.
    split; [reflexivity|]. split; [|reflexivity].
    right. exists (a :: audio). split; [discriminate|reflexivity].
  - match goal with
    | |- context [send_json E error_event ?s] =>
        destruct (send_json_ok Hsend error_event s) as (w3 & H3)
    end.
    rewrite H3.
    match goal with
    | |- context [send_json E (status_event "ready") ?s] =>
        destruct (send_json_ok Hsend (status_event "ready") s) as (w4 & H4)
    end.
    rewrite H4. do 2 eexists. split; [reflexivity|]. cbn.
    rewrite Hs2, <- !app_assoc. cbn. auto.
Qed.

(** C2, as the code has it. A turn whose transcription comes back empty is
    not silent: the session sends the processing status, the error frame
    and the ready status; it asks neither the reasoning nor the synthesis
    service, leaves the history as it was and empties the buffer. *)
Theorem nothing_heard_is_reported_as_error : forall (text : string)
    (st : state W),
  accepts_all E ->
  hears_nothing E text st ->
  exists st',
    on_frame E (Text text) st = (Ok tt, st') /\
    sent st' =
      sent st ++ [status_event "processing"; error_event;
                  status_event "ready"] /\
    conversation_history st' = conversation_history st /\
    llm_calls (calls st') = llm_calls (calls st) /\
    tts_inputs (calls st') = tts_inputs (calls st) /\
    audio_buffer st' = [].
Proof.
  intros text st Hsend ((kvs & Hloads & Htype) & Hbuf & Hheard).
  rewrite (on_frame_audio_end text st Hloads Htype).
  unfold on_audio_end, bind, get_buffer, set_buffer, try_except, ret.
  destruct (audio_buffer st) as [|b bs] eqn:Hb; [congruence|]. cbn.
  destruct (send_json_ok Hsend (status_event "processing") st) as (w1 & H1).
  rewrite H1 in Hheard |- *. cbn in Hheard. rewrite Hb in *.
  unfold process_voice_input, try_except, bind, ret.
  match goal with
  | |- context [transcribe_audio E ?a ?s] =>
      destruct (transcribe_audio_effect a s)
        as (heard & st2 & H2 & Hh2 & Hl2 & _ & Hv2 & Hs2 & _)
  end.
  rewrite H2 in Hheard |- *. cbn in Hheard. injection Hheard as ->. cbn.
  cbn in Hh2, Hl2, Hv2, Hs2.
  match goal with
  | |- context [send_json E error_event ?s] =>
      destruct (send_json_ok Hsend error_event s) as (w3 & H3)
  end.
  rewrite H3.
  match goal with
  | |- context [send_json E (status_event "ready") ?s] =>
      destruct (send_json_ok Hsend (status_event "ready") s) as (w4 & H4)
  end.
  rewrite H4. eexists. split; [reflexivity|]. cbn.
  rewrite Hs2, <- !app_assoc. cbn. auto 10.
Qed.

(** *** Counting reasoning requests *)

Lemma execute_tool_call_returns : forall (tool_name arguments : json)
    (st : state W),
  (eq_str tool_name "get_weather" = true ->
   exists kvs, arguments = JObj kvs) ->
  exists text st',
    execute_tool_call E tool_name arguments st = (Ok text, st').
Proof.
  intros tool_name arguments st Hargs.
  unfold execute_tool_call, record_call, bind, lift, ret. cbn.
  destruct (eq_str tool_name "get_weather").
  - destruct (Hargs eq_refl) as (kvs & ->). unfold dict_get. cbn.
    match goal with
    | |- context [get_weather E ?l ?s] =>
        destruct (get_weather_total l s) as (text & st' & Hrun & _)
    end.
    eauto.
  - eauto.
Qed.

Lemma turn_count : forall text r added n runs,
  turn text r added n runs -> (1 <= n <= 2)%nat.
Proof. intros text r added n runs H; destruct H; lia. Qed.

(** What the accesses of the reasoning step need in order to succeed. *)
Lemma getitem_ok : forall (v : json) (k : string) (x : json),
  getitem v k = Ok x -> exists kvs, v = JObj kvs /\ lookup k kvs = Some x.
Proof.
  intros v k x H. unfold getitem in H.
  destruct v as [ | | | | | | kvs]; try discriminate H.
  destruct (lookup k kvs) eqn:Hl; [|discriminate H].
  injection H as <-. eauto.
Qed.

Lemma getitem0_object : forall (v : json) (kvs : list (string * json)),
  getitem0 v = Ok (JObj kvs) -> exists more, v = JArr (JObj kvs :: more).
Proof.
  intros v kvs H. unfold getitem0 in H.
  destruct v as [ | | | | s | l | ]; try discriminate H.
  - destruct s; discriminate H.
  - destruct l as [|x more]; [discriminate H|]. injection H as ->. eauto.
Qed.

Lemma dict_get_ok : forall (v : json) (k : string) (d x : json),
  dict_get v k d = Ok x -> exists kvs, v = JObj kvs.
Proof.
  intros v k d x H. unfold dict_get in H. destruct v; try discriminate H.
  eauto.
Qed.

Lemma loads_ok : forall (v x : json),
  loads E v = Ok x -> exists s, v = JStr s /\ json_loads E s = Some x.
Proof.
  intros v x H. unfold loads in H.
  destruct v as [ | | | | s | | ]; try discriminate H.
  destruct (json_loads E s) eqn:Hs; [|discriminate H].
  injection H as <-. eauto.
Qed.

Lemma execute_tool_call_ok : forall (tool_name arguments : json)
    (st st' : state W) (output : string),
  execute_tool_call E tool_name arguments st = (Ok output, st') ->
  eq_str tool_name "get_weather" = true -> exists kvs, arguments = JObj kvs.
Proof.
  intros tool_name arguments st st' output Hrun Hname.
  unfold execute_tool_call, record_call, bind, lift, ret in Hrun.
  cbn in Hrun. rewrite Hname in Hrun.
  destruct (dict_get arguments "location" (JStr "")) eqn:Hget;
    [|discriminate Hrun].
  exact (@dict_get_ok _ _ _ _ Hget).
Qed.

(** The accesses that precede the follow-up request succeed only on a
    well-formed first tool call. *)
Lemma tool_round_needs_well_formed_call : forall (body : option json)
    (result choices choice message tool_calls tool_call function name
       arguments args id : json)
    (st1 st2 : state W) (output : string),
  response_json body = Ok result ->
  getitem result "choices" = Ok choices ->
  getitem0 choices = Ok choice ->
  getitem choice "message" = Ok message ->
  getitem message "tool_calls" = Ok tool_calls ->
  getitem0 tool_calls = Ok tool_call ->
  getitem tool_call "function" = Ok function ->
  getitem function "name" = Ok name ->
  getitem function "arguments" = Ok arguments ->
  loads E arguments = Ok args ->
  execute_tool_call E name args st1 = (Ok output, st2) ->
  getitem tool_call "id" = Ok id ->
  exists kvs,
    carries_message (Responded body) kvs /\ requests_tool E kvs name args.
Proof.
  intros body result choices choice message tool_calls tool_call function
    name arguments args id st1 st2 output
    Hjson Hchoices Hchoice Hmessage Hcalls Hcall Hfunction Hname Harguments
    Hloads Hrun Hid.
  destruct body as [j|]; [|discriminate Hjson].
  cbn in Hjson. injection Hjson as ->.
  apply getitem_ok in Hchoices as (kbody & -> & Hchoices).
  apply getitem_ok in Hmessage as (kchoice & -> & Hmessage).
  apply getitem0_object in Hchoice as (others & ->).
  apply getitem_ok in Hcalls as (kmessage & -> & Hcalls).
  apply getitem_ok in Hfunction as (kcall & -> & Hfunction).
  apply getitem0_object in Hcall as (more & ->).
  apply getitem_ok in Hname as (kfn & -> & Hname).
  apply getitem_ok in Harguments as (kfn' & Hsame & Harguments).
  injection Hsame as <-.
  apply loads_ok in Hloads as (atext & -> & Hloads).
  apply getitem_ok in Hid as (kcall' & Hsame & Hid).
  injection Hsame as <-.
  exists kmessage. split.
  - exists kbody, kchoice, others. auto.
  - exists kcall, more, kfn, atext, id. repeat split; auto.
    intros Hweather. exact (@execute_tool_call_ok _ _ _ _ _ Hrun Hweather).
Qed.

Ltac step_run :=
  match goal with
  | |- context [execute_tool_call E ?n ?a ?s] =>
      let H := fresh "Hexec" in
      let Hrun := fresh "Hrun" in
      pose proof (execute_tool_call_effect n a s) as H; cbn in H;
      destruct (execute_tool_call E n a s) as [[? | ?] ?] eqn:Hrun;
      cbn in H; destruct H as (? & ? & ? & ? & ? & ?)
  | _ => destruct_match
  end.

(** A second request is issued only when the first answer carries a
    message whose first listed tool call is well-formed. *)
Lemma second_request_needs_well_formed_call : forall (text : string)
    (st : state W),
  llm_calls (calls (snd (chat_body E text st))) =
    (llm_calls (calls st) + 2)%nat ->
  exists message name args,
    carries_message
      (fst (llm_post E
              (chat_payload system_prompt_tools
                 (conversation_history st ++ [user_entry text])) (world st)))
      message /\
    requests_tool E message name args.
Proof.
  intros text st.
  unfold chat_body, tool_round, llm_message, append_history, get_history,
    set_history, exchange, bind, lift, ret.
  cbn. repeat (step_run; cbn).
  all: tidy.
  all: try (intros Hcount; exfalso; lia).
  all: intros _.
  all: match goal with
       | Hrun : execute_tool_call E ?name ?args _ = (Ok _, _) |- _ =>
           cut (exists kvs,
                  carries_message (Responded body) kvs /\
                  requests_tool E kvs name args);
           [ intros (kvs & Hcarries & Hcall); exists kvs, name, args;
             split; assumption
           | eapply tool_round_needs_well_formed_call; eassumption ]
       end.
Qed.

(** C4. One call of the reasoning step issues one or two chat-completion
    requests: exactly one when the first answer asks for no tool; exactly
    two when the first tool call it lists is well-formed (an id, a function
    with a name and JSON-encoded arguments, a mapping for get_weather), and
    only then; only the first listed tool call is run, once, and what the
    follow-up answer asks for changes nothing. *)
Theorem reasoning_requests_at_most_two : forall (text : string)
    (st : state W),
  let first :=
    fst (llm_post E
           (chat_payload system_prompt_tools
              (conversation_history st ++ [user_entry text])) (world st)) in
  let st' := snd (chat_with_llm E text st) in
  (llm_calls (calls st) + 1 <= llm_calls (calls st') /\
   llm_calls (calls st') <= llm_calls (calls st) + 2)%nat /\
  (forall message,
     carries_message first message -> requests_no_tool message ->
     llm_calls (calls st') = (llm_calls (calls st) + 1)%nat /\
     tool_runs (calls st') = tool_runs (calls st)) /\
  (forall message name args,
     carries_message first message -> requests_tool E message name args ->
     llm_calls (calls st') = (llm_calls (calls st) + 2)%nat /\
     tool_runs (calls st') = tool_runs (calls st) ++ [(name, args)]) /\
  (llm_calls (calls st') = (llm_calls (calls st) + 2)%nat ->
   exists message name args,
     carries_message first message /\ requests_tool E message name args).
Proof.
  intros text st first st'. subst first st'.
  rewrite chat_with_llm_run. cbn [snd].
  split; [|split; [|split]].
  - destruct (chat_body_turn text st)
      as (added & n & runs & Hturn & _ & Hn & _).
    cbn in Hn. apply turn_count in Hturn. lia.
  - intros message (body & choice & others & Hfirst & Hchoices & Hmsg) Hno.
    unfold requests_no_tool in Hno.
    unfold chat_body, llm_message, append_history, get_history,
      set_history, exchange, bind, lift, ret.
    cbn. destruct (llm_post E _ (world st)) as [o w]. cbn in Hfirst.
    subst o. unfold response_json, getitem, getitem0, dict_get. cbn.
    rewrite Hchoices. cbn. rewrite Hmsg. cbn.
    destruct (lookup "tool_calls" message) as [v|]; cbn.
    + rewrite Hno. cbn. tidy. rewrite app_nil_r. auto.
    + unfold truthy. cbn. tidy. rewrite app_nil_r. auto.
  - intros message name args
      (body & choice & others & Hfirst & Hchoices & Hmsg)
      (call & more & fn & atext & id & Hcalls & Hfn & Hname & Hargs & Hload
       & Hmap & Hid).
    unfold chat_body, tool_round, llm_message, append_history, get_history,
      set_history, exchange, bind, lift, ret.
    cbn. destruct (llm_post E _ (world st)) as [o w]. cbn in Hfirst.
    subst o. unfold response_json, getitem, getitem0, dict_get, loads. cbn.
    rewrite Hchoices. cbn. rewrite Hmsg. cbn. rewrite Hcalls. cbn.
    unfold truthy. cbn. rewrite Hfn. cbn. rewrite Hname. cbn.
    rewrite Hargs. cbn. rewrite Hload. cbn.
    match goal with
    | |- context [execute_tool_call E name args ?s] =>
        destruct (@execute_tool_call_returns name args s Hmap)
          as (output & st1 & Hrun);
        pose proof (execute_tool_call_effect name args s) as Heff;
        rewrite Hrun in Heff |- *; cbn in Heff;
        destruct Heff as (Hh & Hb & Hs & Hl & Ht & Hv)
    end.
    cbn. rewrite Hid. cbn.
    repeat (destruct_match; cbn); tidy; rewrite ?app_nil_r; auto.
  - apply second_request_needs_well_formed_call.
Qed.

(** *** Failure of the reasoning service *)


(** *** The history cap *)

Lemma trim_length : forall history, (length (trim history) <= 10)%nat.
Proof.
  intros history. unfold trim.
  destruct (Nat.ltb_spec 10 (length history)) as [Hlong|Hshort].
  - rewrite length_skipn. lia.
  - exact Hshort.
Qed.

Lemma trim_long : forall history,
  (10 < length history)%nat ->
  trim history = skipn (length history - 10) history /\
  length (trim history) = 10%nat.
Proof.
  intros history Hlong. unfold trim.
  apply Nat.ltb_lt in Hlong. rewrite Hlong.
  apply Nat.ltb_lt in Hlong.
  split; [reflexivity|]. rewrite length_skipn. lia.
Qed.

Lemma trim_short : forall history,
  (length history <= 10)%nat -> trim history = history.
Proof.
  intros history Hshort. unfold trim.
  destruct (Nat.ltb_spec 10 (length history)); [lia|reflexivity].
Qed.

(** X22. A call of the reasoning step that does not fail leaves at most
    ten entries, whatever the length it started from: one success brings a
    history that failures had let grow back under the cap. *)
Lemma successful_turn_respects_cap : forall (text : string) (st st' : state W)
    (reply : json),
  chat_body E text st = (Ok reply, st') ->
  (length (conversation_history st') <= 10)%nat.
Proof.
  intros text st st' reply Hbody.
  destruct (chat_body_turn text st) as (added & n & runs & _ & Hh & _).
  rewrite Hbody in Hh. cbn in Hh. rewrite Hh. apply trim_length.
Qed.

(** A call that fails leaves the history one to three entries longer and
    untrimmed. *)
Lemma failed_turn_grows_history : forall (text : string) (st st' : state W)
    (e : exn),
  chat_body E text st = (Raise e, st') ->
  (length (conversation_history st) < length (conversation_history st'))%nat.
Proof.
  intros text st st' e Hbody.
  destruct (chat_body_turn text st) as (added & n & runs & Hturn & Hh & _).
  rewrite Hbody in Hturn, Hh. cbn in Hturn, Hh. rewrite Hh, length_app.
  inversion Hturn; subst; cbn; lia.
Qed.

(** *** Order of the stored entries *)

Lemma turn_adds_no_system : forall text r added n runs,
  turn text r added n runs ->
  Forall (fun entry => is_system entry = false) added.
Proof.
  intros text r added n runs H.
  destruct H; repeat constructor.
Qed.

Lemma stored_by_same : forall h, stored_by h h.
Proof.
  intros h. right. exists []. split; [constructor|].
  left. rewrite app_nil_r. reflexivity.
Qed.

Lemma chat_body_stored : forall (text : string) (st : state W),
  stored_by (conversation_history st)
    (conversation_history (snd (chat_body E text st))).
Proof.
  intros text st.
  destruct (chat_body_turn text st) as (added & n & runs & Hturn & Hh & _).
  cbn in Hh. right. exists added.
  split; [exact (turn_adds_no_system Hturn)|].
  rewrite Hh. destruct (fst (chat_body E text st)); [|left; reflexivity].
  destruct (Nat.ltb_spec 10 (length (conversation_history st ++ added)))
    as [Hlong|Hshort].
  - right. destruct (trim_long _ Hlong) as (Heq & Hlen).
    rewrite Hlen, Heq. auto.
  - left. apply trim_short. exact Hshort.
Qed.

Lemma send_json_history : forall (msg : json) (st : state W),
  conversation_history (snd (send_json E msg st)) = conversation_history st.
Proof.
  intros msg st. unfold send_json.
  destruct (ws_send E msg (world st)) as [[e|] w]; reflexivity.
Qed.

Arguments process_voice_input : simpl never.
Arguments send_json : simpl never.

Ltac session_step :=
  match goal with
  | |- context [send_json E ?m ?s] =>
      let H := fresh "Hsent" in
      pose proof (send_json_history m s) as H;
      destruct (send_json E m s) as [[[]|?] ?]; cbn in H
  | |- context [process_voice_input E ?a ?s] =>
      let H := fresh "Hturn" in
      destruct (process_voice_input_effect a s) as (? & ? & H & _ & _ & ?);
      rewrite H
  | _ => destruct_match
  end.

Lemma on_audio_end_history : forall (st : state W),
  let st' := snd (on_audio_end E st) in
  conversation_history st' = conversation_history st \/
  exists text st1,
    conversation_history st1 = conversation_history st /\
    conversation_history st' =
      conversation_history (snd (chat_body E text st1)).
Proof.
  intros st.
  unfold on_audio_end, bind, get_buffer, set_buffer, try_except, ret.
  cbn. repeat (session_step; cbn).
  all: repeat match goal with
       | H : conversation_history ?s = _ |- context [conversation_history ?s] =>
           rewrite H
       end.
  all: try (left; reflexivity).
  all: match goal with
       | H : _ \/ _ |- _ =>
           destruct H as [H | (text & st1 & H1 & H2)];
           [ left; cbn in H; congruence
           | right; exists text, st1; cbn in H1; split; congruence ]
       end.
Qed.

Lemma forall_skipn : forall (P : json -> Prop) (k : nat) (l : list json),
  Forall P l -> Forall P (skipn k l).
Proof.
  intros P k. induction k as [|k IH]; intros l Hl; [exact Hl|].
  destruct l as [|x l]; [constructor|]. cbn. apply IH.
  inversion Hl; assumption.
Qed.

Lemma stored_keeps_no_system : forall h h',
  stored_by h h' ->
  Forall (fun entry => is_system entry = false) h ->
  Forall (fun entry => is_system entry = false) h'.
Proof.
  intros h h' [-> | (added & Hadded & [-> | (_ & -> & _)])] Hh.
  - constructor.
  - apply Forall_app. auto.
  - apply forall_skipn, Forall_app. auto.
Qed.

Arguments on_audio_end : simpl never.

Lemma on_frame_stored : forall (data : frame) (st : state W),
  stored_by (conversation_history st)
    (conversation_history (snd (on_frame E data st))).
Proof.
  intros data st. destruct data as [chunk|text|].
  - cbn. apply stored_by_same.
  - unfold on_frame, bind, lift.
    destruct (loads E (JStr text)) as [message|e]; [|apply stored_by_same].
    destruct (dict_get message "type" JNull) as [type|e];
      [|apply stored_by_same].
    destruct (eq_str type "audio_end").
    + destruct (on_audio_end_history st) as [Hsame | (t & st1 & H1 & H2)].
      * cbn in Hsame. rewrite Hsame. apply stored_by_same.
      * cbn in H2. rewrite H2, <- H1. apply chat_body_stored.
    + destruct (eq_str type "reset"); [|apply stored_by_same].
      unfold on_reset, bind, set_history, set_buffer.
      match goal with
      | |- context [send_json E ?m ?s] =>
          pose proof (send_json_history m s) as Hsent;
          destruct (send_json E m s) as [[[]|?] ?]
      end; cbn in Hsent |- *; left; exact Hsent.
  - cbn. apply stored_by_same.
Qed.

Lemma serve_keeps_no_system : forall (frames : list frame) (st : state W),
  Forall (fun entry => is_system entry = false) (conversation_history st) ->
  Forall (fun entry => is_system entry = false)
    (conversation_history (snd (serve E frames st))).
Proof.
  induction frames as [|data rest IH]; intros st Hst; [exact Hst|].
  cbn [serve]. unfold bind.
  pose proof (stored_keeps_no_system (on_frame_stored data st) Hst) as Hnext.
  destruct (on_frame E data st) as [[[]|e] st1]; cbn in Hnext |- *.
  - apply IH. exact Hnext.
  - exact Hnext.
Qed.

(** C10. Each message the session handles leaves the history empty (the
    reset), or equal to the old history with entries appended at its end,
    or equal to the last ten entries of that when it grew past ten: what
    is kept stays in its order.  No appended entry has the system role, so
    no session ever stores the system instruction. *)
Theorem history_operations_keep_order :
  (forall (data : frame) (st : state W),
     stored_by (conversation_history st)
       (conversation_history (snd (on_frame E data st)))) /\
  (forall (frames : list frame) (w : W),
     Forall (fun entry => is_system entry = false)
       (conversation_history (websocket_endpoint E frames w))).
Proof.
  split; [exact on_frame_stored|].
  intros frames w. unfold websocket_endpoint, try_except, ret.
  pose proof (@serve_keeps_no_system frames (initial_state w)
                (Forall_nil _)) as Hrun.
  destruct (serve E frames (initial_state w)) as [[[]|e] st']; exact Hrun.
Qed.

(** *** Pairing of tool calls and tool results *)

Lemma paired_app : forall h1 h2,
  paired h1 -> paired h2 -> paired (h1 ++ h2).
Proof.
  induction h1 as [|entry rest IH]; intros h2 H1 H2; [exact H2|].
  cbn in H1 |- *. destruct H1 as (Hnext & Hrest).
  split; [|apply IH; assumption].
  intros Hinv. specialize (Hnext Hinv).
  destruct rest as [|next rest']; [contradiction|exact Hnext].
Qed.

Lemma paired_skipn : forall k h, paired h -> paired (skipn k h).
Proof.
  induction k as [|k IH]; intros h Hh; [exact Hh|].
  destruct h as [|entry rest]; [exact I|]. cbn. apply IH. apply Hh.
Qed.

Lemma paired_trim : forall h, paired h -> paired (trim h).
Proof.
  intros h Hh. unfold trim.
  destruct (10 <? length h)%nat; [apply paired_skipn|]; exact Hh.
Qed.

Lemma first_call_id : forall tool_calls tool_call id,
  getitem0 tool_calls = Ok tool_call ->
  getitem tool_call "id" = Ok id ->
  invocation_id (tool_call_entry tool_calls) = Some id.
Proof.
  intros tool_calls tool_call id H0 Hid.
  unfold getitem0 in H0.
  destruct tool_calls as [| | | |s|xs|]; try discriminate.
  - destruct s; [discriminate|]. injection H0 as <-. discriminate.
  - destruct xs as [|x xs]; [discriminate|]. injection H0 as ->.
    unfold getitem in Hid.
    destruct tool_call as [| | | | | |kvs]; try discriminate.
    cbn. destruct (lookup "id" kvs); [congruence|discriminate].
Qed.

(** X23. The reasoning step keeps every tool call paired with its result,
    except on the one path where the first tool call has no id: there the
    tool-call entry is stored and the step fails before the result is. *)
Lemma pairing_kept_unless_id_missing : forall (text : string) (st : state W),
  paired (conversation_history st) ->
  let st' := snd (chat_with_llm E text st) in
  paired (conversation_history st') \/
  exists tool_calls,
    conversation_history st' =
      conversation_history st ++
        [user_entry text; tool_call_entry tool_calls].
Proof.
  intros text st Hst st'. subst st'.
  rewrite chat_with_llm_run. cbn [snd].
  destruct (chat_body_turn text st) as (added & n & runs & Hturn & Hh & _).
  cbn in Hh. rewrite Hh.
  inversion Hturn as
    [ e runs' Hruns Hr
    | e tcs tc name args H0 Hid Hr
    | e tcs tc id name args output H0 Hid Hr
    | reply Hr
    | reply tcs tc id name args output H0 Hid Hr ]; subst.
  - left. apply paired_app; [exact Hst|]. cbn. intuition discriminate.
  - right. eauto.
  - left. apply paired_app; [exact Hst|]. cbn.
    repeat split; try discriminate.
    intros _. exists id. split; [exact (first_call_id _ H0 Hid)|].
    cbn. auto.
  - left. apply paired_trim, paired_app; [exact Hst|].
    destruct reply; cbn; intuition discriminate.
  - left. apply paired_trim, paired_app; [exact Hst|].
    assert (Hlast : is_invocation (assistant_entry reply) = false)
      by (destruct reply; reflexivity).
    cbn [paired]. rewrite Hlast.
    repeat split; try discriminate.
    intros _. exists id. split; [exact (first_call_id _ H0 Hid)|].
    cbn. auto.
Qed.

(** *** The reply text, and what counts as a failure *)

Ltac first_answer Hfirst :=
  unfold chat_with_llm, try_except, chat_body, tool_round, llm_message,
    append_history, get_history, set_history, exchange, bind, lift, ret;
  cbn;
  match goal with
  | |- context [llm_post E ?p ?w] =>
      let o := fresh "o" in
      let w' := fresh "w" in
      destruct (llm_post E p w) as [o w'];
      cbn in Hfirst; subst o
  end;
  unfold response_json, getitem, getitem0, dict_get, loads; cbn.


(** A final message whose content key holds null is answered by null. *)
Lemma null_content_yields_null : forall (text : string) (st : state W)
    (message : list (string * json)),
  carries_message
    (fst (llm_post E
            (chat_payload system_prompt_tools
               (conversation_history st ++ [user_entry text])) (world st)))
    message ->
  requests_no_tool message ->
  lookup "content" message = Some JNull ->
  fst (chat_with_llm E text st) = Ok JNull.
Proof.
  intros text st message (body & choice & others & Hfirst & Hchoices & Hmsg)
    Hno Hcontent.
  unfold requests_no_tool in Hno.
  first_answer Hfirst.
  rewrite Hchoices. cbn. rewrite Hmsg. cbn.
  destruct (lookup "tool_calls" message) as [v|]; cbn.
  - rewrite Hno. cbn. rewrite Hcontent. reflexivity.
  - unfold truthy. cbn. rewrite Hcontent. reflexivity.
Qed.

(** A request that raises, a rejected status and a body that is not JSON
    all make the body of the reasoning step raise. *)
Lemma failed_exchange_raises : forall (text : string) (st : state W),
  (forall body,
     fst (llm_post E
            (chat_payload system_prompt_tools
               (conversation_history st ++ [user_entry text])) (world st))
     <> Responded (Some body)) ->
  exists e, fst (chat_body E text st) = Raise e.
Proof.
  intros text st Hfailed.
  unfold chat_body, llm_message, append_history, get_history, exchange,
    bind, lift, ret.
  cbn.
  match goal with
  | |- context [llm_post E ?p ?w] =>
      destruct (llm_post E p w) as [[e|code|[body|]] w']
  end; unfold response_json; cbn in Hfailed |- *; eauto.
  exfalso. exact (Hfailed body eq_refl).
Qed.

(** An answer without the choices field makes it raise. *)
Lemma missing_choices_raises : forall (text : string) (st : state W)
    (body : list (string * json)),
  fst (llm_post E
         (chat_payload system_prompt_tools
            (conversation_history st ++ [user_entry text])) (world st))
    = Responded (Some (JObj body)) ->
  lookup "choices" body = None ->
  fst (chat_body E text st) = Raise (KeyError (JStr "choices")).
Proof.
  intros text st body Hfirst Hchoices.
  unfold chat_body, llm_message, append_history, get_history, exchange,
    bind, lift, ret.
  cbn.
  match goal with
  | |- context [llm_post E ?p ?w] =>
      destruct (llm_post E p w) as [o w']
  end.
  cbn in Hfirst. subst o. unfold response_json, getitem. cbn.
  rewrite Hchoices. reflexivity.
Qed.

(** Tool-call arguments that are not JSON make it raise, before anything
    but the user entry has been stored. *)
Lemma malformed_arguments_raise : forall (text : string) (st : state W)
    (message call fn : list (string * json)) (more : list json)
    (name : json) (arguments : string),
  carries_message
    (fst (llm_post E
            (chat_payload system_prompt_tools
               (conversation_history st ++ [user_entry text])) (world st)))
    message ->
  lookup "tool_calls" message = Some (JArr (JObj call :: more)) ->
  lookup "function" call = Some (JObj fn) ->
  lookup "name" fn = Some name ->
  lookup "arguments" fn = Some (JStr arguments) ->
  json_loads E arguments = None ->
  fst (chat_body E text st) = Raise JSONDecodeError /\
  conversation_history (snd (chat_body E text st)) =
    conversation_history st ++ [user_entry text].
Proof.
  intros text st message call fn more name arguments
    (body & choice & others & Hfirst & Hchoices & Hmsg)
    Hcalls Hfn Hname Hargs Hload.
  unfold chat_body, tool_round, llm_message, append_history, get_history,
    exchange, bind, lift, ret.
  cbn.
  match goal with
  | |- context [llm_post E ?p ?w] =>
      destruct (llm_post E p w) as [o w']
  end.
  cbn in Hfirst. subst o.
  unfold response_json, getitem, getitem0, dict_get, loads. cbn.
  rewrite Hchoices. cbn. rewrite Hmsg. cbn. rewrite Hcalls. cbn.
  unfold truthy. cbn. rewrite Hfn. cbn. rewrite Hname. cbn.
  rewrite Hargs. cbn. rewrite Hload. cbn. auto.
Qed.

(** ** Further properties of the handler and the pipeline *)

Lemma eq_str_true : forall (v : json) (s : string),
  eq_str v s = true <-> v = JStr s.
Proof.
  intros v s. unfold eq_str. split.
  - destruct v; try discriminate. intros H.
    apply String.eqb_eq in H. congruence.
  - intros ->. apply String.eqb_refl.
Qed.

(** X1. A turn-end message that finds the buffer empty does nothing: no
    frame is sent, no service is asked, the session state is unchanged. *)
Theorem turn_end_on_empty_buffer_is_ignored : forall (text : string)
    (kvs : list (string * json)) (st : state W),
  json_loads E text = Some (JObj kvs) ->
  lookup "type" kvs = Some (JStr "audio_end") ->
  audio_buffer st = [] ->
  on_frame E (Text text) st = (Ok tt, st).
Proof.
  intros text kvs st Hloads Htype Hempty.
  rewrite (on_frame_audio_end text st Hloads Htype).
  unfold on_audio_end, bind, get_buffer. rewrite Hempty. reflexivity.
Qed.

(** X2. A reset message empties the history and the buffer and asks no
    service, whether or not its answer can be delivered; when the websocket
    accepts frames the answer is the single reset_complete status. *)
Theorem reset_clears_history_and_buffer : forall (text : string)
    (kvs : list (string * json)) (st : state W),
  json_loads E text = Some (JObj kvs) ->
  lookup "type" kvs = Some (JStr "reset") ->
  let st' := snd (on_frame E (Text text) st) in
  conversation_history st' = [] /\
  audio_buffer st' = [] /\
  calls st' = calls st /\
  (accepts_all E ->
   fst (on_frame E (Text text) st) = Ok tt /\
   sent st' = sent st ++ [status_event "reset_complete"]).
Proof.
  intros text kvs st Hloads Htype. cbv zeta.
  unfold on_frame, bind, lift, loads, dict_get, eq_str.
  rewrite Hloads. cbn. rewrite Htype. cbn.
  unfold on_reset, bind, set_history, set_buffer, send_json. cbn.
  destruct (ws_send E (status_event "reset_complete") (world st))
    as [r w] eqn:Hsend.
  split; [|split; [|split]].
  - destruct r; reflexivity.
  - destruct r; reflexivity.
  - destruct r; reflexivity.
  - intros Haccepts.
    specialize (Haccepts (status_event "reset_complete") (world st)).
    rewrite Hsend in Haccepts. cbn in Haccepts. subst r. auto.
Qed.

(** X3. A run of binary frames only fills the buffer: the session goes on
    as if their chunks had been appended to it in one piece. *)
Theorem binary_frames_accumulate : forall (chunks : list (list byte))
    (rest : list frame) (st : state W),
  serve E (map Binary chunks ++ rest) st =
  serve E rest (with_buffer st (audio_buffer st ++ concat chunks)).
Proof.
  induction chunks as [|chunk chunks IH]; intros rest st.
  - cbn [map concat app]. rewrite app_nil_r.
    destruct st; reflexivity.
  - cbn [map concat app serve]. unfold bind at 1.
    cbn [on_frame]. unfold bind at 1, get_buffer, set_buffer.
    cbn beta iota. rewrite IH. unfold with_buffer. cbn.
    rewrite app_assoc. reflexivity.
Qed.

(** X4. A control message whose type is neither audio_end nor reset, or
    that has no type at all, is ignored: the session state is unchanged. *)
Theorem other_message_types_are_ignored : forall (text : string)
    (kvs : list (string * json)) (st : state W),
  json_loads E text = Some (JObj kvs) ->
  lookup "type" kvs <> Some (JStr "audio_end") ->
  lookup "type" kvs <> Some (JStr "reset") ->
  on_frame E (Text text) st = (Ok tt, st).
Proof.
  intros text kvs st Hloads Hturn Hreset.
  unfold on_frame, bind, lift, loads, dict_get.
  rewrite Hloads. cbn.
  destruct (lookup "type" kvs) as [ty|] eqn:Hty; cbn.
  - destruct (eq_str ty "audio_end") eqn:H1.
    + apply eq_str_true in H1. congruence.
    + destruct (eq_str ty "reset") eqn:H2; [|reflexivity].
      apply eq_str_true in H2. congruence.
  - reflexivity.
Qed.

Lemma malformed_frame_raises : forall (text : string) (st : state W),
  malformed E text ->
  exists e, on_frame E (Text text) st = (Raise e, st).
Proof.
  intros text st Hbad. unfold malformed in Hbad.
  unfold on_frame, bind, lift, loads, dict_get.
  destruct (json_loads E text) as [[| | | | | |kvs]|]; cbn; eauto.
  contradiction.
Qed.

(** X5. A text frame that does not decode to a JSON object ends the
    session where it stands: no frame that follows it is handled. *)
Theorem malformed_message_ends_session : forall (before after : list frame)
    (text : string) (w : W),
  malformed E text ->
  websocket_endpoint E (before ++ Text text :: after) w =
  websocket_endpoint E (before ++ [Text text]) w.
Proof.
  intros before after text w Hbad.
  unfold websocket_endpoint, try_except.
  generalize (initial_state w). clear w.
  induction before as [|data before IH]; intros st.
  - cbn [app serve]. unfold bind.
    destruct (@malformed_frame_raises text st Hbad) as (e & Hraise).
    rewrite Hraise. reflexivity.
  - cbn [app serve]. unfold bind.
    destruct (on_frame E data st) as [[[]|e] st1]; [apply IH|reflexivity].
Qed.

Lemma stt_audios_app : forall cs ds,
  stt_audios (cs ++ ds) = stt_audios cs ++ stt_audios ds.
Proof.
  induction cs as [|c cs IH]; intros ds; [reflexivity|].
  destruct c; cbn; rewrite IH; reflexivity.
Qed.

Lemma weather_requests_app : forall cs ds,
  weather_requests (cs ++ ds) = weather_requests cs ++ weather_requests ds.
Proof.
  induction cs as [|c cs IH]; intros ds; [reflexivity|].
  destruct c; cbn; rewrite IH; reflexivity.
Qed.

Arguments weather_log : simpl never.
Arguments tool_log : simpl never.
Arguments speech_log : simpl never.

(** *** The record of requests *)

Lemma get_weather_calls : forall (location : json) (st : state W),
  calls (snd (get_weather E location st)) =
    calls st ++ weather_log E location.
Proof.
  intros location st.
  unfold get_weather, try_except, bind, lift, ret, exchange, weather_log,
    weather_params.
  destruct (String.eqb (WEATHER_API_KEY E) ""); cbn.
  - rewrite app_nil_r. reflexivity.
  - repeat (destruct_match; cbn); reflexivity.
Qed.

Lemma execute_tool_call_calls : forall (tool_name arguments : json)
    (st : state W),
  calls (snd (execute_tool_call E tool_name arguments st)) =
    calls st ++ tool_log E tool_name arguments.
Proof.
  intros tool_name arguments st.
  unfold execute_tool_call, record_call, bind, lift, ret, tool_log, dict_get.
  cbn. destruct (eq_str tool_name "get_weather"); cbn.
  - destruct arguments; cbn; try reflexivity.
    match goal with
    | |- context [get_weather E ?l ?s] =>
        pose proof (get_weather_calls l s) as Hlog;
        destruct (get_weather E l s) as [[text|e] st1]
    end; cbn in Hlog |- *; rewrite Hlog, <- app_assoc; reflexivity.
  - destruct arguments; reflexivity.
Qed.

(** X6. Without a weather credential the weather service is never asked;
    with one, each lookup asks it exactly once, for the given location, with
    the credential and metric units. *)
Theorem weather_service_is_asked_once : forall (location : json)
    (st : state W),
  let st' := snd (get_weather E location st) in
  (WEATHER_API_KEY E = EmptyString ->
   get_weather E location st = (Ok msg_no_key, st)) /\
  (WEATHER_API_KEY E <> EmptyString ->
   calls st' =
     calls st ++
       [CallWeather
          (JObj [("q", location); ("appid", JStr (WEATHER_API_KEY E));
                 ("units", JStr "metric")])]).
Proof.
  intros location st. cbv zeta. split.
  - intros Hkey. unfold get_weather, try_except. rewrite Hkey. reflexivity.
  - intros Hkey. rewrite get_weather_calls. unfold weather_log.
    apply String.eqb_neq in Hkey. rewrite Hkey. reflexivity.
Qed.

Ltac log_step :=
  match goal with
  | |- context [execute_tool_call E ?n ?a ?s] =>
      let Hc := fresh "Hcalls" in
      let Hh := fresh "Hhist" in
      pose proof (execute_tool_call_calls n a s) as Hc;
      pose proof (proj1 (execute_tool_call_effect n a s)) as Hh;
      destruct (execute_tool_call E n a s) as [[? | ?] ?];
      cbn in Hc, Hh
  | _ => destruct_match
  end.

Ltac use_logs :=
  repeat match goal with
  | H : conversation_history ?s = _ |- context [conversation_history ?s] =>
      rewrite H
  | H : calls ?s = _ |- context [calls ?s] => rewrite H
  end.

Lemma chat_body_log : forall (text : string) (st : state W),
  exists rest,
    calls (snd (chat_body E text st)) =
      calls st ++
        CallLLM (chat_payload system_prompt_tools
                   (conversation_history st ++ [user_entry text])) :: rest /\
    reasoning_log E (conversation_history st) text rest.
Proof.
  intros text st.
  unfold chat_body, tool_round, llm_message, append_history, get_history,
    set_history, exchange, bind, lift, ret.
  cbn. repeat (log_step; cbn).
  all: use_logs; rewrite <- ?app_assoc; cbn [app].
  all: eexists; (split; [reflexivity|]).
  all: solve [econstructor].
Qed.

(** X7. The reasoning step asks in a fixed order and nothing else: first
    the chat-completion service, with the tool-enabled system message, the
    whole stored history and the new user entry; then at most one tool; then
    at most one follow-up, with the plain system message and the history
    extended by the user entry, the tool-call entry and the tool result. *)
Theorem reasoning_requests_in_order : forall (text : string) (st : state W),
  exists rest,
    calls (snd (chat_with_llm E text st)) =
      calls st ++
        CallLLM (chat_payload system_prompt_tools
                   (conversation_history st ++ [user_entry text])) :: rest /\
    reasoning_log E (conversation_history st) text rest.
Proof.
  intros text st. rewrite chat_with_llm_run. cbn [snd].
  apply chat_body_log.
Qed.

Lemma transcribe_audio_calls : forall (audio : list byte) (st : state W),
  calls (snd (transcribe_audio E audio st)) = calls st ++ [CallSTT audio].
Proof.
  intros audio st.
  unfold transcribe_audio, try_except, exchange, bind, lift, ret.
  run; reflexivity.
Qed.

Lemma text_to_speech_calls : forall (text : json) (st : state W),
  calls (snd (text_to_speech E text st)) = calls st ++ speech_log text.
Proof.
  intros text st.
  unfold text_to_speech, try_except, exchange, bind, lift, ret, slice50,
    speech_log.
  destruct text; run; rewrite ?app_nil_r; reflexivity.
Qed.

Lemma process_voice_input_log : forall (audio : list byte) (st : state W),
  exists rest,
    calls (snd (process_voice_input E audio st)) =
      calls st ++ CallSTT audio :: rest /\
    (rest = [] \/
     exists text reply thinking,
       text <> EmptyString /\
       rest =
         CallLLM (chat_payload system_prompt_tools
                    (conversation_history st ++ [user_entry text]))
           :: thinking ++ speech_log reply /\
       reasoning_log E (conversation_history st) text thinking).
Proof.
  intros audio st.
  unfold process_voice_input, try_except, bind, ret.
  pose proof (transcribe_audio_calls audio st) as Hstt.
  destruct (transcribe_audio_effect audio st)
    as (heard & st1 & Hrun & Hh1 & _).
  rewrite Hrun in Hstt |- *. cbn in Hstt |- *.
  destruct heard as [t|]; cbn.
  - destruct (String.eqb t "") eqn:Ht; cbn.
    + exists []. rewrite Hstt. auto.
    + rewrite chat_with_llm_run.
      destruct (chat_body_log t st1) as (thinking & Hlog & Hshape).
      match goal with
      | |- context [text_to_speech E ?reply ?s] =>
          pose proof (text_to_speech_calls reply s) as Htts;
          destruct (text_to_speech_effect reply s)
            as (out & st3 & Hrun3 & _);
          rewrite Hrun3 in Htts |- *; cbn in Htts |- *
      end.
      rewrite Htts, Hlog, Hstt, Hh1, <- !app_assoc. cbn [app].
      eexists. split; [reflexivity|]. right.
      do 3 eexists. split; [|split; [reflexivity|]].
      * apply String.eqb_neq. exact Ht.
      * rewrite <- Hh1. exact Hshape.
  - exists []. rewrite Hstt. auto.
Qed.


Lemma filter_requests_app : forall cs ds,
  filter is_request (cs ++ ds) = filter is_request cs ++ filter is_request ds.
Proof. intros cs ds. apply filter_app. Qed.

Lemma tool_log_requests : forall tool_name arguments,
  (length (filter is_request (tool_log E tool_name arguments)) <= 1)%nat.
Proof.
  intros tool_name arguments. unfold tool_log, weather_log. cbn.
  destruct arguments; cbn; try lia.
  destruct (eq_str tool_name "get_weather"); cbn; try lia.
  destruct (String.eqb (WEATHER_API_KEY E) ""); cbn; lia.
Qed.

Lemma reasoning_log_requests : forall h text rest,
  reasoning_log E h text rest ->
  (length (filter is_request rest) <= 2)%nat.
Proof.
  intros h text rest Hlog. destruct Hlog.
  - cbn. lia.
  - pose proof (tool_log_requests tool_name arguments). lia.
  - rewrite filter_requests_app, length_app. cbn.
    pose proof (tool_log_requests tool_name arguments). lia.
Qed.

(** X9. One turn sends at most five requests to the outside: one
    transcription, two chat completions, one weather lookup and one
    synthesis. *)
Theorem turn_issues_at_most_five_requests : forall (audio : list byte)
    (st : state W),
  exists added,
    calls (snd (process_voice_input E audio st)) = calls st ++ added /\
    (length (filter is_request added) <= 5)%nat.
Proof.
  intros audio st.
  destruct (process_voice_input_log audio st)
    as (rest & Hlog & [-> | (text & reply & thinking & _ & -> & Hshape)]).
  - eexists. split; [exact Hlog|]. cbn. lia.
  - eexists. split; [exact Hlog|]. cbn.
    rewrite filter_requests_app, length_app.
    pose proof (reasoning_log_requests Hshape).
    unfold speech_log. destruct (sliceable reply); cbn; lia.
Qed.

Lemma lstrip_all_space : forall s, all_space s = true -> lstrip s = EmptyString.
Proof.
  assert (Hbounded : forall n s, (String.length s <= n)%nat ->
            all_space s = true -> lstrip s = EmptyString).
  { induction n as [|n IH]; intros s Hlen Hs.
    - destruct s; [reflexivity|]. cbn in Hlen. lia.
    - destruct s as [|c rest]; [reflexivity|].
      cbn [all_space lstrip String.length] in Hlen, Hs |- *.
      destruct (isspace c); [apply IH; [lia|exact Hs]|].
      destruct rest as [|d rest2]; [discriminate Hs|].
      cbn [String.length] in Hlen.
      destruct (isspace2 c d); [apply IH; [lia|exact Hs]|].
      destruct rest2 as [|e rest3]; [discriminate Hs|].
      cbn [String.length] in Hlen.
      destruct (isspace3 c d e); [|discriminate Hs].
      apply IH; [lia|exact Hs]. }
  intros s. apply (Hbounded (String.length s)). lia.
Qed.

Lemma all_space_lstrip : forall s, all_space (lstrip s) = all_space s.
Proof.
  assert (Hbounded : forall n s, (String.length s <= n)%nat ->
            all_space (lstrip s) = all_space s).
  { induction n as [|n IH]; intros s Hlen.
    - destruct s; [reflexivity|]. cbn in Hlen. lia.
    - destruct s as [|c rest]; [reflexivity|].
      cbn [lstrip String.length] in Hlen |- *.
      destruct (isspace c) eqn:Hc.
      { cbn [all_space]. rewrite Hc. apply IH. lia. }
      destruct rest as [|d rest2].
      { cbn [all_space]. rewrite Hc. reflexivity. }
      cbn [String.length] in Hlen.
      destruct (isspace2 c d) eqn:Hd.
      { cbn [all_space]. rewrite Hc, Hd. apply IH. lia. }
      destruct rest2 as [|e rest3].
      { cbn [all_space]. rewrite Hc, Hd. reflexivity. }
      cbn [String.length] in Hlen.
      destruct (isspace3 c d e) eqn:He.
      { cbn [all_space]. rewrite Hc, Hd, He. apply IH. lia. }
      reflexivity. }
  intros s. apply (Hbounded (String.length s)). lia.
Qed.

(** [strip] leaves nothing exactly of the texts made of white space only. *)
Lemma strip_empty_iff_all_space : forall s,
  strip s = EmptyString <-> all_space s = true.
Proof.
  intros s. unfold strip. split.
  - intros Hstrip. rewrite <- all_space_lstrip.
    destruct (lstrip s) as [|c rest]; [reflexivity|].
    cbn [rstrip] in Hstrip.
    destruct (all_space (String c rest)); [reflexivity|discriminate Hstrip].
  - intros Hs. rewrite (lstrip_all_space s Hs). reflexivity.
Qed.

(** X10. A transcription that has no text field, or whose text is white
    space only, counts as nothing heard: the pipeline returns no audio after
    the one transcription request, asks neither the reasoning nor the
    synthesis service and leaves the history alone. *)
Theorem blank_transcription_is_nothing_heard : forall (audio : list byte)
    (st : state W) (kvs : list (string * json)) (w : W),
  stt_post E audio (world st) = (Responded (Some (JObj kvs)), w) ->
  (forall t, lookup "text" kvs = Some (JStr t) -> all_space t = true) ->
  process_voice_input E audio st =
    (Ok None,
     mkState (conversation_history st) (audio_buffer st) (sent st)
       (calls st ++ [CallSTT audio]) w).
Proof.
  intros audio st kvs w Hpost Hblank.
  unfold process_voice_input, transcribe_audio, try_except, exchange, bind,
    lift, ret, response_json, dict_get, str_strip.
  rewrite Hpost. cbn.
  destruct (lookup "text" kvs) as [[| | | |t| |]|]; cbn; try reflexivity.
  rewrite (proj2 (strip_empty_iff_all_space t) (Hblank t eq_refl)).
  reflexivity.
Qed.

(** X11. A reply that is neither a string nor a list (null, a number, a
    boolean, an object) is not spoken: the synthesis step returns no audio
    and does not contact the synthesis service. *)
Theorem unspeakable_reply_is_not_synthesised : forall (reply : json)
    (st : state W),
  sliceable reply = false ->
  text_to_speech E reply st = (Ok None, st).
Proof.
  intros reply st Hreply.
  unfold text_to_speech, try_except, bind, lift, ret, slice50.
  destruct reply; try discriminate; reflexivity.
Qed.

(** *** The frames a session sends *)

Lemma terminal_for_is_terminal : forall out, is_terminal (terminal_for out).
Proof.
  intros [[|b bs]|]; cbn; [left; reflexivity| |left; reflexivity].
  right. exists (b :: bs). split; [discriminate|reflexivity].
Qed.

Lemma on_audio_end_run : accepts_all E ->
  forall (st : state W) (out : option (list byte)) (st2 : state W),
  audio_buffer st <> [] ->
  process_voice_input E (audio_buffer st)
    (snd (send_json E (status_event "processing") st)) = (Ok out, st2) ->
  exists st',
    on_audio_end E st = (Ok tt, st') /\
    sent st' =
      sent st ++
        [status_event "processing"; terminal_for out; status_event "ready"] /\
    conversation_history st' = conversation_history st2 /\
    calls st' = calls st2 /\
    audio_buffer st' = [].
Proof.
  intros Hsend st out st2 Hbuf Hrun.
  unfold on_audio_end, bind, get_buffer, set_buffer, try_except, ret.
  destruct (audio_buffer st) as [|b bs] eqn:Hb; [congruence|]. cbn.
  destruct (send_json_ok Hsend (status_event "processing") st) as (w1 & H1).
  rewrite H1 in Hrun |- *. cbn in Hrun. rewrite ?Hb in Hrun |- *.
  rewrite Hrun.
  destruct (process_voice_input_effect (b :: bs)
              (mkState (conversation_history st) (b :: bs)
                 (sent st ++ [status_event "processing"]) (calls st) w1))
    as (out' & st2' & Hrun' & Hs2 & _ & _).
  rewrite Hrun in Hrun'. injection Hrun' as <- <-. cbn in Hs2. cbn.
  destruct out as [[|a audio]|]; cbn.
  - match goal with
    | |- context [send_json E error_event ?s] =>
        destruct (send_json_ok Hsend error_event s) as (w3 & H3)
    end.
    rewrite H3.
    match goal with
    | |- context [send_json E (status_event "ready") ?s] =>
        destruct (send_json_ok Hsend (status_event "ready") s) as (w4 & H4)
    end.
    rewrite H4. eexists. split; [reflexivity|]. cbn.
    rewrite Hs2, <- !app_assoc. cbn. auto.
  - match goal with
    | |- context [send_json E (audio_response_event ?x) ?s] =>
        destruct (send_json_ok Hsend (audio_response_event x) s)
          as (w3 & H3)
    end.
    rewrite H3.
    match goal with
    | |- context [send_json E (status_event "ready") ?s] =>
        destruct (send_json_ok Hsend (status_event "ready") s) as (w4 & H4)
    end.
    rewrite H4. eexists. split; [reflexivity|]. cbn.
    rewrite Hs2, <- !app_assoc. cbn. auto.
  - match goal with
    | |- context [send_json E error_event ?s] =>
        destruct (send_json_ok Hsend error_event s) as (w3 & H3)
    end.
    rewrite H3.
    match goal with
    | |- context [send_json E (status_event "ready") ?s] =>
        destruct (send_json_ok Hsend (status_event "ready") s) as (w4 & H4)
    end.
    rewrite H4. eexists. split; [reflexivity|]. cbn.
    rewrite Hs2, <- !app_assoc. cbn. auto.
Qed.

(** X12. The terminal frame of a turn is decided by the pipeline's
    outcome alone: an audio response carrying the base64 text of the audio
    when the pipeline produced at least one byte, the error frame when it
    produced none or nothing at all; the turn leaves the history and the
    record of requests as the pipeline left them. *)
Theorem terminal_frame_follows_pipeline_outcome : forall (st : state W)
    (out : option (list byte)) (st2 : state W),
  accepts_all E ->
  audio_buffer st <> [] ->
  process_voice_input E (audio_buffer st)
    (snd (send_json E (status_event "processing") st)) = (Ok out, st2) ->
  exists st',
    on_audio_end E st = (Ok tt, st') /\
    sent st' =
      sent st ++
        [status_event "processing"; terminal_for out; status_event "ready"] /\
    conversation_history st' = conversation_history st2 /\
    calls st' = calls st2 /\
    audio_buffer st' = [].
Proof.
  intros st out st2 Hsend Hbuf Hrun.
  exact (on_audio_end_run Hsend st Hbuf Hrun).
Qed.

Lemma on_frame_sequenced : accepts_all E ->
  forall (data : frame) (st : state W),
  well_sequenced (sent st) ->
  well_sequenced (sent (snd (on_frame E data st))).
Proof.
  intros Hsend data st Hst. destruct data as [chunk|text|].
  - exact Hst.
  - unfold on_frame, bind, lift.
    destruct (loads E (JStr text)) as [message|e]; [|exact Hst].
    destruct (dict_get message "type" JNull) as [type|e]; [|exact Hst].
    destruct (eq_str type "audio_end").
    + destruct (audio_buffer st) as [|b bs] eqn:Hb.
      * unfold on_audio_end, bind, get_buffer. rewrite Hb. exact Hst.
      * destruct (process_voice_input_effect (audio_buffer st)
                    (snd (send_json E (status_event "processing") st)))
          as (out & st2 & Hrun & _).
        assert (Hbuf : audio_buffer st <> []) by (rewrite Hb; discriminate).
        destruct (on_audio_end_run Hsend st Hbuf Hrun)
          as (st' & Hend & Hsent & _).
        rewrite Hend. cbn. rewrite Hsent.
        apply sequenced_turn; [exact Hst|apply terminal_for_is_terminal].
    + destruct (eq_str type "reset"); [|exact Hst].
      unfold on_reset, bind, set_history, set_buffer.
      match goal with
      | |- context [send_json E ?m ?s] =>
          destruct (send_json_ok Hsend m s) as (w & Hreset)
      end.
      rewrite Hreset. cbn. apply sequenced_reset. exact Hst.
  - exact Hst.
Qed.

(** X13. Over a websocket that accepts frames, whatever a session sends
    is a sequence of whole answers: processing, one terminal frame, ready
    for each turn, and reset_complete for each reset.  No ready comes
    without its processing, no two terminal frames answer one turn. *)
Theorem session_frames_are_whole_answers : forall (frames : list frame)
    (w : W),
  accepts_all E ->
  well_sequenced (sent (websocket_endpoint E frames w)).
Proof.
  intros frames w Hsend. unfold websocket_endpoint, try_except, ret.
  assert (Hrun : forall st, well_sequenced (sent st) ->
            well_sequenced (sent (snd (serve E frames st)))).
  { induction frames as [|data rest IH]; intros st Hst; [exact Hst|].
    cbn [serve]. unfold bind.
    pose proof (on_frame_sequenced Hsend data st Hst) as Hnext.
    destruct (on_frame E data st) as [[[]|e] st1]; cbn in Hnext |- *.
    - apply IH. exact Hnext.
    - exact Hnext. }
  specialize (Hrun (initial_state w) sequenced_nil).
  destruct (serve E frames (initial_state w)) as [[[]|e] st']; exact Hrun.
Qed.

Ltac sent_step :=
  match goal with
  | |- context [process_voice_input E ?a ?s] =>
      let Hrun := fresh "Hrun" in
      let Hs := fresh "Hsent" in
      destruct (process_voice_input_effect a s) as (? & ? & Hrun & Hs & _);
      rewrite Hrun; cbn in Hs
  | _ => destruct_match
  end.

Ltac known :=
  first
    [ left; reflexivity
    | right; left; reflexivity
    | right; right; left; reflexivity
    | right; right; right; left; reflexivity
    | right; right; right; right;
      eexists; split; [|reflexivity]; discriminate ].

Lemma on_frame_sends_known : forall (data : frame) (st : state W),
  exists new,
    sent (snd (on_frame E data st)) = sent st ++ new /\
    Forall known_event new.
Proof.
  intros data st. destruct data as [chunk|text|].
  - exists []. cbn. rewrite app_nil_r. auto.
  - unfold on_frame, on_audio_end, on_reset, send_json, bind, lift,
      get_buffer, set_buffer, set_history, try_except, ret.
    cbn. repeat (sent_step; cbn).
    all: repeat match goal with
         | H : sent ?s = _ |- context [sent ?s] => rewrite H
         end.
    all: rewrite <- ?app_assoc; cbn [app].
    all: try solve
      [exists []; split; [rewrite app_nil_r; reflexivity|constructor]].
    all: eexists; (split; [reflexivity|]).
    all: repeat (apply Forall_cons; [known|]); apply Forall_nil.
  - exists []. cbn. rewrite app_nil_r. auto.
Qed.

(** X14. Whatever the client sends and whatever fails, a session only
    ever sends the three status frames, the error frame and audio
    responses, and an audio response is never empty. *)
Theorem session_sends_only_known_frames : forall (frames : list frame)
    (w : W),
  Forall known_event (sent (websocket_endpoint E frames w)).
Proof.
  intros frames w. unfold websocket_endpoint, try_except, ret.
  assert (Hrun : forall st, Forall known_event (sent st) ->
            Forall known_event (sent (snd (serve E frames st)))).
  { induction frames as [|data rest IH]; intros st Hst; [exact Hst|].
    cbn [serve]. unfold bind.
    destruct (on_frame_sends_known data st) as (new & Hsent & Hnew).
    destruct (on_frame E data st) as [[[]|e] st1]; cbn in Hsent |- *.
    - apply IH. rewrite Hsent. apply Forall_app. auto.
    - rewrite Hsent. apply Forall_app. auto. }
  specialize (Hrun (initial_state w) (Forall_nil _)).
  destruct (serve E frames (initial_state w)) as [[[]|e] st']; exact Hrun.
Qed.

(** X15. When the audio response cannot be delivered the turn is not
    lost: the failure is swallowed, the buffer is emptied and the ready
    status is still sent, so the session goes on. *)
Theorem undelivered_audio_does_not_end_turn : forall (st : state W),
  accepts_all_but_audio E ->
  audio_buffer st <> [] ->
  exists st' log,
    on_audio_end E st = (Ok tt, st') /\
    audio_buffer st' = [] /\
    sent st' = log ++ [status_event "ready"].
Proof.
  intros st Hsend Hbuf.
  unfold on_audio_end, send_json, bind, get_buffer, set_buffer, try_except,
    ret.
  destruct (audio_buffer st) as [|b bs] eqn:Hb; [congruence|]. cbn.
  repeat (sent_step; cbn).
  all: try solve [do 2 eexists; repeat split; reflexivity].
  all: exfalso;
    match goal with
    | Hp : ws_send E ?m ?w = (Some _, _) |- _ =>
        destruct (Hsend m w) as [(kvs & Ha & Hty) | Hn];
        [ injection Ha as <-; discriminate Hty
        | rewrite Hp in Hn; discriminate Hn ]
    end.
Qed.

Lemma trim_keeps_tail : forall (h added : list json),
  (length added <= 10)%nat ->
  exists kept, trim (h ++ added) = kept ++ added.
Proof.
  intros h added Hshort. unfold trim.
  destruct (Nat.ltb_spec 10 (length (h ++ added))) as [Hlong|_].
  - exists (skipn (length (h ++ added) - 10) h).
    rewrite skipn_app. f_equal.
    replace (length (h ++ added) - 10 - length h)%nat with 0%nat
      by (rewrite length_app; lia).
    reflexivity.
  - exists h. reflexivity.
Qed.

(** X16. The trim never cuts into the turn that has just succeeded: its
    user entry, its tool-call entry and tool result when a tool ran, and the
    reply, which comes last, are all still in the history. *)
Theorem successful_turn_keeps_its_entries : forall (text : string)
    (st st' : state W) (reply : json),
  chat_body E text st = (Ok reply, st') ->
  exists kept middle,
    conversation_history st' =
      kept ++ user_entry text :: middle ++ [assistant_entry reply] /\
    (middle = [] \/
     exists tool_calls id name output,
       middle = [tool_call_entry tool_calls;
                 tool_result_entry id name output]).
Proof.
  intros text st st' reply Hbody.
  destruct (chat_body_turn text st) as (added & n & runs & Hturn & Hh & _).
  rewrite Hbody in Hturn, Hh. cbn in Hturn, Hh.
  inversion Hturn; subst.
  - destruct (trim_keeps_tail (conversation_history st)
                [user_entry text; assistant_entry reply]) as (kept & Hkept);
      [cbn; lia|].
    exists kept, []. rewrite Hh, Hkept. auto.
  - destruct (trim_keeps_tail (conversation_history st)
                [user_entry text; tool_call_entry tool_calls;
                 tool_result_entry id name output; assistant_entry reply])
      as (kept & Hkept); [cbn; lia|].
    exists kept,
      [tool_call_entry tool_calls; tool_result_entry id name output].
    rewrite Hh, Hkept. split; [reflexivity|]. right. eauto.
Qed.

Arguments weather_requests : simpl nomatch.

(** X17. A get_weather call whose arguments are not JSON, or are JSON but
    not a mapping, fails the turn: the reply is the fallback text, only the
    user entry has been stored, the weather service is not asked and no
    follow-up request is made. *)
Theorem unusable_weather_arguments_fail_the_turn : forall (text : string)
    (st : state W) (message : list (string * json)) (args : option json),
  carries_message
    (fst (llm_post E
            (chat_payload system_prompt_tools
               (conversation_history st ++ [user_entry text])) (world st)))
    message ->
  asks_weather_with E message args ->
  (forall kvs, args <> Some (JObj kvs)) ->
  let st' := snd (chat_with_llm E text st) in
  fst (chat_with_llm E text st) = Ok (JStr fallback_llm_error) /\
  conversation_history st' = conversation_history st ++ [user_entry text] /\
  weather_requests (calls st') = weather_requests (calls st) /\
  llm_calls (calls st') = (llm_calls (calls st) + 1)%nat.
Proof.
  intros text st message args
    (body & choice & others & Hfirst & Hchoices & Hmsg)
    (call & more & fn & atext & Hcalls & Hfn & Hname & Hargs & Hload)
    Hbad.
  cbv zeta.
  unfold chat_with_llm, try_except, chat_body, tool_round, llm_message,
    execute_tool_call, record_call, append_history, get_history, exchange,
    bind, lift, ret.
  cbn.
  match goal with
  | |- context [llm_post E ?p ?w] =>
      destruct (llm_post E p w) as [o w']
  end.
  cbn in Hfirst. subst o.
  unfold response_json, getitem, getitem0, dict_get, loads, eq_str. cbn.
  rewrite Hchoices. cbn. rewrite Hmsg. cbn. rewrite Hcalls. cbn.
  unfold truthy. cbn. rewrite Hfn. cbn. rewrite Hname. cbn.
  rewrite Hargs. cbn. rewrite Hload.
  destruct args as [[| | | | | |kvs]|]; cbn;
    rewrite ?llm_calls_app, ?weather_requests_app; cbn;
    rewrite ?app_nil_r; auto.
  exfalso. exact (Hbad kvs eq_refl).
Qed.

(** *** What the reasoning step stores and returns *)

(** X18. When the first answer asks for no tool and has a content, the
    reply is that content, and the history becomes the old one with the user
    entry and the reply appended, cut to its last ten entries. *)
Theorem plain_answer_is_replied_and_stored : forall (text : string)
    (st : state W) (message : list (string * json)) (reply : json),
  carries_message
    (fst (llm_post E
            (chat_payload system_prompt_tools
               (conversation_history st ++ [user_entry text])) (world st)))
    message ->
  requests_no_tool message ->
  lookup "content" message = Some reply ->
  fst (chat_with_llm E text st) = Ok reply /\
  conversation_history (snd (chat_with_llm E text st)) =
    trim (conversation_history st ++
            [user_entry text; assistant_entry reply]).
Proof.
  intros text st message reply
    (body & choice & others & Hfirst & Hchoices & Hmsg) Hno Hcontent.
  unfold requests_no_tool in Hno.
  first_answer Hfirst.
  rewrite Hchoices. cbn. rewrite Hmsg. cbn.
  destruct (lookup "tool_calls" message) as [v|]; cbn.
  - rewrite Hno. cbn. rewrite Hcontent. cbn.
    rewrite <- app_assoc. auto.
  - unfold truthy. cbn. rewrite Hcontent. cbn.
    rewrite <- app_assoc. auto.
Qed.

(** X19. When the first answer lists a well-formed tool call, the history
    keeps, after the user entry, the tool-call entry with all listed calls
    and then the tool result: it carries the id of the first call, the
    tool's name and the very text the tool returned for the decoded
    arguments.  This holds whether or not the follow-up succeeds. *)
Theorem tool_result_is_stored_with_call_id : forall (text : string)
    (st : state W) (message : list (string * json)) (name args : json),
  carries_message
    (fst (llm_post E
            (chat_payload system_prompt_tools
               (conversation_history st ++ [user_entry text])) (world st)))
    message ->
  requests_tool E message name args ->
  exists tool_calls call more id output kept tail,
    lookup "tool_calls" message = Some tool_calls /\
    tool_calls = JArr (JObj call :: more) /\
    lookup "id" call = Some id /\
    fst (execute_tool_call E name args
           (mkState (conversation_history st ++ [user_entry text])
              (audio_buffer st) (sent st)
              (calls st ++
                 [CallLLM
                    (chat_payload system_prompt_tools
                       (conversation_history st ++ [user_entry text]))])
              (snd (llm_post E
                      (chat_payload system_prompt_tools
                         (conversation_history st ++ [user_entry text]))
                      (world st))))) = Ok output /\
    conversation_history (snd (chat_with_llm E text st)) =
      kept ++
        [user_entry text; tool_call_entry tool_calls;
         tool_result_entry id name output] ++ tail.
Proof.
  intros text st message name args
    (body & choice & others & Hfirst & Hchoices & Hmsg)
    (call & more & fn & atext & id & Hcalls & Hfn & Hname & Hargs & Hload
     & Hmap & Hid).
  exists (JArr (JObj call :: more)), call, more, id.
  unfold chat_with_llm, try_except, chat_body, tool_round, llm_message,
    append_history, get_history, set_history, exchange, bind, lift, ret.
  cbn.
  match goal with
  | |- context [llm_post E ?p ?w] =>
      destruct (llm_post E p w) as [o w']
  end.
  cbn in Hfirst. subst o.
  unfold response_json, getitem, getitem0, dict_get, loads. cbn.
  rewrite Hchoices. cbn. rewrite Hmsg. cbn. rewrite Hcalls. cbn.
  unfold truthy. cbn. rewrite Hfn. cbn. rewrite Hname. cbn.
  rewrite Hargs. cbn. rewrite Hload. cbn.
  match goal with
  | |- context [execute_tool_call E name args ?s] =>
      destruct (@execute_tool_call_returns name args s Hmap)
        as (output & st1 & Hrun);
      pose proof (proj1 (execute_tool_call_effect name args s)) as Hh;
      rewrite Hrun in Hh |- *; cbn in Hh
  end.
  exists output. cbn. rewrite Hid. cbn.
  repeat (destruct_match; cbn).
  all: rewrite Hh, <- ?app_assoc; cbn [app].
  all: try solve
    [ exists (conversation_history st), []; repeat split; reflexivity ].
  all: match goal with
       | |- context [trim (?h ++ ?added)] =>
           let kept := fresh "kept" in
           let Hkept := fresh "Hkept" in
           destruct (trim_keeps_tail h added) as (kept & Hkept);
           [ cbn; lia | rewrite Hkept; exists kept ]
       end.
  all: eexists; repeat split; reflexivity.
Qed.

(** X20. The failures of a weather lookup come back as text, each in its
    own wording: a 404 names the location as not found, any other rejected
    status is an error fetching the weather, and a body that is not JSON or
    lacks the name field is an inability to fetch it. *)
Theorem weather_failures_are_reported_as_text : forall (location : json)
    (st : state W),
  WEATHER_API_KEY E <> EmptyString ->
  let answer :=
    fst (weather_get E
           (JObj [("q", location); ("appid", JStr (WEATHER_API_KEY E));
                  ("units", JStr "metric")]) (world st)) in
  (answer = StatusRejected 404 ->
   fst (get_weather E location st) =
     Ok ("Location '" ++ fmt E location
         ++ "' not found. Please check the city name.")%string) /\
  (forall code, answer = StatusRejected code -> code <> 404 ->
   fst (get_weather E location st) =
     Ok ("Error fetching weather: "
         ++ exn_str E (HTTPStatusError code))%string) /\
  (answer = Responded None ->
   fst (get_weather E location st) =
     Ok ("Unable to fetch weather data: "
         ++ exn_str E JSONDecodeError)%string) /\
  (forall data, answer = Responded (Some (JObj data)) ->
   lookup "name" data = None ->
   fst (get_weather E location st) =
     Ok ("Unable to fetch weather data: "
         ++ exn_str E (KeyError (JStr "name")))%string).
Proof.
  intros location st Hkey answer. subst answer.
  apply String.eqb_neq in Hkey.
  unfold get_weather, try_except, bind, lift, ret, exchange.
  rewrite Hkey.
  destruct (weather_get E _ (world st)) as [o w]. cbn [fst].
  repeat split.
  - intros ->. reflexivity.
  - intros code -> Hcode. cbn.
    apply Z.eqb_neq in Hcode. rewrite Hcode. reflexivity.
  - intros ->. reflexivity.
  - intros data -> Hname. unfold response_json, getitem. cbn.
    rewrite Hname. reflexivity.
Qed.

(** X21. After a reset the assistant has forgotten the conversation: the
    next reasoning request carries the system message and the new user entry
    and nothing of what was said before. *)
Theorem reset_forgets_history_in_next_request : forall (reset_message : string)
    (kvs : list (string * json)) (st : state W) (text : string),
  json_loads E reset_message = Some (JObj kvs) ->
  lookup "type" kvs = Some (JStr "reset") ->
  let st1 := snd (on_frame E (Text reset_message) st) in
  exists rest,
    calls (snd (chat_with_llm E text st1)) =
      calls st ++
        CallLLM (chat_payload system_prompt_tools [user_entry text]) :: rest.
Proof.
  intros reset_message kvs st text Hloads Htype st1.
  assert (Hst1 : conversation_history st1 = [] /\ calls st1 = calls st).
  { subst st1.
    unfold on_frame, bind, lift, loads, dict_get, eq_str.
    rewrite Hloads. cbn. rewrite Htype. cbn.
    unfold on_reset, bind, set_history, set_buffer, send_json. cbn.
    destruct (ws_send E (status_event "reset_complete") (world st))
      as [[e|] w]; auto. }
  destruct Hst1 as (Hh & Hc).
  rewrite chat_with_llm_run. cbn [snd].
  destruct (chat_body_log text st1) as (rest & Hlog & _).
  exists rest. rewrite Hlog, Hh, Hc. reflexivity.
Qed.

End Properties.

(** ** The properties on sample sessions *)

Import Sample.

Lemma sample_accepts_all : forall key stt weather tts,
  accepts_all (sample_services key stt weather tts).
Proof. intros key stt weather tts msg w. reflexivity. Qed.

Lemma turn_end_emits_terminal_then_ready_witness :
  exists terminal st',
    on_frame hello_services (Text audio_end_text) (one_byte []) =
      (Ok tt, st') /\
    sent st' =
      sent (one_byte []) ++
        [status_event "processing"; terminal; status_event "ready"] /\
    (terminal = error_event \/
     exists audio, audio <> [] /\ terminal = audio_response_event audio) /\
    audio_buffer st' = [].
Proof.
  apply (@turn_end_emits_terminal_then_ready script hello_services
           audio_end_text [("type", JStr "audio_end")] (one_byte [])).
  - intros msg w. reflexivity.
  - vm_compute. reflexivity.
  - reflexivity.
  - discriminate.
Defined.

Lemma silence_is_heard_as_nothing :
  hears_nothing silence_services audio_end_text (one_byte []).
Proof.
  split; [|split].
  - exists [("type", JStr "audio_end")]. split; vm_compute; reflexivity.
  - discriminate.
  - vm_compute. reflexivity.
Defined.

(** C2, counterexample. With one byte buffered and a transcription that
    comes back empty, the turn-end is not silent: frames are sent. *)
Lemma nothing_heard_is_not_silent :
  ~ silent_when_nothing_heard silence_services audio_end_text (one_byte []).
Proof.
  intros Hsilent. specialize (Hsilent silence_is_heard_as_nothing).
  vm_compute in Hsilent. discriminate Hsilent.
Qed.

Lemma nothing_heard_is_reported_as_error_witness :
  exists st',
    on_frame silence_services (Text audio_end_text) (one_byte []) =
      (Ok tt, st') /\
    sent st' =
      sent (one_byte []) ++
        [status_event "processing"; error_event; status_event "ready"] /\
    conversation_history st' = conversation_history (one_byte []) /\
    llm_calls (calls st') = llm_calls (calls (one_byte [])) /\
    tts_inputs (calls st') = tts_inputs (calls (one_byte [])) /\
    audio_buffer st' = [].
Proof.
  apply (@nothing_heard_is_reported_as_error script silence_services
           audio_end_text (one_byte [])).
  - intros msg w. reflexivity.
  - split; [|split].
    + exists [("type", JStr "audio_end")]. split; vm_compute; reflexivity.
    + discriminate.
    + vm_compute. reflexivity.
Defined.

(** C3, on the code. Eleven turns in a row whose reasoning request fails
    leave eleven entries in the history, one more than the cap: the failing
    path appends the user entry and returns before the trim. *)
Theorem failed_turns_exceed_cap :
  length (conversation_history (websocket_endpoint hello_services (turns 11) []))
    = 11%nat.
Proof. vm_compute. reflexivity. Qed.

(** C4, counterexample. The first answer lists a get_weather call whose
    arguments are not JSON: decoding them fails, no tool runs, the step
    answers with the fallback and has issued one request, not two. *)
Lemma listed_tool_call_gets_one_request :
  ~ two_requests_when_tool_listed hello_services "hello"
      (initial_state garbles).
Proof.
  intros Htwo.
  specialize (Htwo [("role", JStr "assistant"); ("content", JNull);
                    ("tool_calls",
                     JArr [weather_call "call_1" "not json"])]).
  assert (Hcount :
    llm_calls (calls (snd (chat_with_llm hello_services "hello"
                             (initial_state garbles)))) = 2%nat).
  { apply Htwo.
    - exists [("choices",
               JArr [JObj [("message",
                            wants_tool (weather_call "call_1" "not json"))]])],
        [("message", wants_tool (weather_call "call_1" "not json"))], [].
      split; [vm_compute; reflexivity|]. split; reflexivity.
    - exists (weather_call "call_1" "not json"), []. reflexivity. }
  vm_compute in Hcount. discriminate Hcount.
Qed.

Lemma reasoning_requests_at_most_two_witness :
  llm_calls (calls (snd (chat_with_llm hello_services "hello"
                           (initial_state insists)))) = 2%nat /\
  tool_runs (calls (snd (chat_with_llm hello_services "hello"
                           (initial_state insists)))) =
    [(JStr "get_weather", JObj [("location", JStr "Tokyo")])].
Proof.
  apply (proj1 (proj2 (proj2 (@reasoning_requests_at_most_two script
                                hello_services "hello"
                                (initial_state insists))))
           [("role", JStr "assistant"); ("content", JNull);
            ("tool_calls", JArr [weather_call "call_1" tokyo_text])]).
  - exists [("choices",
             JArr [JObj [("message",
                          wants_tool (weather_call "call_1" tokyo_text))]])],
      [("message", wants_tool (weather_call "call_1" tokyo_text))], [].
    split; [vm_compute; reflexivity|]. split; reflexivity.
  - exists [("id", JStr "call_1"); ("type", JStr "function");
            ("function", JObj [("name", JStr "get_weather");
                               ("arguments", JStr tokyo_text)])],
      [], [("name", JStr "get_weather"); ("arguments", JStr tokyo_text)],
      tokyo_text, (JStr "call_1").
    repeat split; try reflexivity.
    intros _. exists [("location", JStr "Tokyo")]. reflexivity.
Defined.


(** C7, on the code. A final answer whose content is null makes the
    reasoning step return null, not the fallback phrase: null is stored as
    the assistant's reply, synthesis fails on it, and the client gets the
    error frame. *)
Theorem null_content_is_returned_as_null :
  fst (chat_with_llm hello_services "hello" (initial_state null_reply)) =
    Ok JNull /\
  conversation_history
    (snd (chat_with_llm hello_services "hello" (initial_state null_reply))) =
    [user_entry "hello"; assistant_entry JNull] /\
  sent (websocket_endpoint hello_services one_turn null_reply) =
    [status_event "processing"; error_event; status_event "ready"].
Proof. repeat split; vm_compute; reflexivity. Qed.

(** C8, on the code. When the first tool call of an answer has no id, the
    tool-call entry is stored and the step fails before the tool result is:
    after the next turn the entry is followed by a user entry. *)
Theorem missing_id_breaks_pairing :
  conversation_history
    (websocket_endpoint hello_services (turns 2) forgets_id) =
    [user_entry "hello";
     tool_call_entry (JArr [anonymous_call tokyo_text]);
     user_entry "hello"] /\
  ~ paired (conversation_history
              (websocket_endpoint hello_services (turns 2) forgets_id)).
Proof.
  split; [vm_compute; reflexivity|].
  intros Hpaired. vm_compute in Hpaired.
  destruct Hpaired as (_ & Hcall & _).
  destruct (Hcall eq_refl) as (id & Hid & _). discriminate Hid.
Qed.

Lemma missing_location_defaults_to_empty_witness :
  execute_tool_call hello_services (JStr "get_weather") (JObj [])
    (initial_state []) =
  get_weather hello_services (JStr EmptyString)
    (snd (record_call (ExecTool (JStr "get_weather") (JObj []))
            (initial_state []))) /\
  exists text st',
    execute_tool_call hello_services (JStr "get_weather") (JObj [])
      (initial_state []) = (Ok text, st').
Proof.
  apply (@missing_location_defaults_to_empty script hello_services []
           (initial_state [])).
  reflexivity.
Defined.

Lemma turn_end_on_empty_buffer_is_ignored_witness :
  on_frame hello_services (Text audio_end_text) (initial_state greets) =
    (Ok tt, initial_state greets).
Proof.
  apply (@turn_end_on_empty_buffer_is_ignored script hello_services
           audio_end_text [("type", JStr "audio_end")]
           (initial_state greets)).
  - vm_compute. reflexivity.
  - reflexivity.
  - reflexivity.
Defined.

Lemma reset_clears_history_and_buffer_witness :
  conversation_history greeted <> [] /\
  audio_buffer greeted <> [] /\
  conversation_history
    (snd (on_frame hello_services (Text reset_text) greeted)) = [] /\
  audio_buffer (snd (on_frame hello_services (Text reset_text) greeted)) = []
  /\
  sent (snd (on_frame hello_services (Text reset_text) greeted)) =
    sent greeted ++ [status_event "reset_complete"].
Proof.
  destruct (@reset_clears_history_and_buffer script hello_services reset_text
              [("type", JStr "reset")] greeted)
    as (Hhistory & Hbuffer & _ & Hsent).
  - vm_compute. reflexivity.
  - reflexivity.
  - split; [vm_compute; discriminate|].
    split; [vm_compute; discriminate|].
    split; [exact Hhistory|]. split; [exact Hbuffer|].
    apply Hsent. intros msg w. reflexivity.
Defined.

Lemma other_message_types_are_ignored_witness :
  on_frame hello_services (Text tokyo_text) greeted = (Ok tt, greeted).
Proof.
  apply (@other_message_types_are_ignored script hello_services tokyo_text
           [("location", JStr "Tokyo")] greeted).
  - vm_compute. reflexivity.
  - vm_compute. discriminate.
  - vm_compute. discriminate.
Defined.

Lemma malformed_message_ends_session_witness :
  websocket_endpoint hello_services (one_turn ++ Text "hello" :: one_turn)
    greets =
  websocket_endpoint hello_services (one_turn ++ [Text "hello"]) greets.
Proof.
  apply (@malformed_message_ends_session script hello_services one_turn
           one_turn "hello" greets).
  vm_compute. exact I.
Defined.

Lemma weather_service_is_asked_once_witness :
  get_weather hello_services (JStr "Tokyo") (initial_state []) =
    (Ok msg_no_key, initial_state []) /\
  calls (snd (get_weather keyed_services (JStr "Tokyo") (initial_state []))) =
    [CallWeather
       (JObj [("q", JStr "Tokyo"); ("appid", JStr "secret");
              ("units", JStr "metric")])].
Proof.
  split.
  - pose proof (@weather_service_is_asked_once script hello_services
                  (JStr "Tokyo") (initial_state [])) as Hasked.
    cbv zeta in Hasked. apply (proj1 Hasked). reflexivity.
  - pose proof (@weather_service_is_asked_once script keyed_services
                  (JStr "Tokyo") (initial_state [])) as Hasked.
    cbv zeta in Hasked. apply (proj2 Hasked). discriminate.
Defined.

Lemma blank_transcription_is_nothing_heard_witness :
  process_voice_input blank_services [x01] (one_byte greets) =
    (Ok None, mkState [] [x01] [] [CallSTT [x01]] greets).
Proof.
  apply (@blank_transcription_is_nothing_heard script blank_services [x01]
           (one_byte greets) [("text", JStr blanks)] greets).
  - reflexivity.
  - intros t Ht. vm_compute in Ht. injection Ht as <-. reflexivity.
Defined.

Lemma unspeakable_reply_is_not_synthesised_witness :
  text_to_speech hello_services JNull (one_byte greets) =
    (Ok None, one_byte greets).
Proof.
  apply (@unspeakable_reply_is_not_synthesised script hello_services JNull
           (one_byte greets)).
  reflexivity.
Defined.

Lemma terminal_frame_follows_pipeline_outcome_witness :
  exists st',
    on_audio_end hello_services (one_byte greets) = (Ok tt, st') /\
    sent st' =
      [status_event "processing"; audio_response_event mp3;
       status_event "ready"] /\
    audio_buffer st' = [].
Proof.
  destruct (@terminal_frame_follows_pipeline_outcome script hello_services
              (one_byte greets) (Some mp3)
              (snd (process_voice_input hello_services [x01]
                      (snd (send_json hello_services
                              (status_event "processing")
                              (one_byte greets))))))
    as (st' & Hrun & Hsent & _ & _ & Hbuffer).
  - intros msg w. reflexivity.
  - discriminate.
  - vm_compute. reflexivity.
  - exists st'. split; [exact Hrun|]. split; [exact Hsent|exact Hbuffer].
Defined.

Lemma session_frames_are_whole_answers_witness :
  well_sequenced
    (sent (websocket_endpoint hello_services (turns 2 ++ [Text reset_text])
             greets)).
Proof.
  apply (@session_frames_are_whole_answers script hello_services
           (turns 2 ++ [Text reset_text]) greets).
  intros msg w. reflexivity.
Defined.

Lemma undelivered_audio_does_not_end_turn_witness :
  exists st' log,
    on_audio_end deaf_services (one_byte greets) = (Ok tt, st') /\
    audio_buffer st' = [] /\
    sent st' = log ++ [status_event "ready"].
Proof.
  apply (@undelivered_audio_does_not_end_turn script deaf_services
           (one_byte greets)).
  - intros msg w. destruct msg as [ | b | z | f | s | l | kvs];
      try (right; reflexivity).
    destruct (lookup "type" kvs) as [v|] eqn:Htype.
    + destruct v as [ | b | z | f | s | l | kvs'];
        try (right; cbn; rewrite Htype; reflexivity).
      destruct (String.eqb s "audio_response") eqn:Hs.
      * left. exists kvs. split; [reflexivity|].
        apply String.eqb_eq in Hs. rewrite Htype, Hs. reflexivity.
      * right. cbn. rewrite Htype, Hs. reflexivity.
    + right. cbn. rewrite Htype. reflexivity.
  - discriminate.
Defined.

Lemma successful_turn_keeps_its_entries_witness :
  exists kept middle,
    conversation_history
      (snd (chat_body hello_services "hello" overgrown)) =
      kept ++ user_entry "hello"
        :: middle ++ [assistant_entry (JStr "hi there")] /\
    (middle = [] \/
     exists tool_calls id name output,
       middle = [tool_call_entry tool_calls;
                 tool_result_entry id name output]).
Proof.
  apply (@successful_turn_keeps_its_entries script hello_services "hello"
           overgrown (snd (chat_body hello_services "hello" overgrown))
           (JStr "hi there")).
  vm_compute. reflexivity.
Defined.

Lemma unusable_weather_arguments_fail_the_turn_witness :
  fst (chat_with_llm hello_services "hello" (initial_state garbles)) =
    Ok (JStr fallback_llm_error) /\
  conversation_history
    (snd (chat_with_llm hello_services "hello" (initial_state garbles))) =
    [user_entry "hello"] /\
  weather_requests
    (calls (snd (chat_with_llm hello_services "hello"
                   (initial_state garbles)))) = [] /\
  llm_calls
    (calls (snd (chat_with_llm hello_services "hello"
                   (initial_state garbles)))) = 1%nat.
Proof.
  apply (@unusable_weather_arguments_fail_the_turn script hello_services
           "hello" (initial_state garbles)
           [("role", JStr "assistant"); ("content", JNull);
            ("tool_calls", JArr [weather_call "call_1" "not json"])]
           None).
  - exists [("choices",
             JArr [JObj [("message",
                          wants_tool (weather_call "call_1" "not json"))]])],
      [("message", wants_tool (weather_call "call_1" "not json"))], [].
    split; [vm_compute; reflexivity|]. split; reflexivity.
  - exists [("id", JStr "call_1"); ("type", JStr "function");
            ("function", JObj [("name", JStr "get_weather");
                               ("arguments", JStr "not json")])],
      [], [("name", JStr "get_weather"); ("arguments", JStr "not json")],
      "not json"%string.
    repeat split; reflexivity.
  - intros kvs. discriminate.
Defined.

Lemma plain_answer_is_replied_and_stored_witness :
  fst (chat_with_llm hello_services "hello" (initial_state greets)) =
    Ok (JStr "hi there") /\
  conversation_history
    (snd (chat_with_llm hello_services "hello" (initial_state greets))) =
    trim (conversation_history (initial_state greets) ++
            [user_entry "hello"; assistant_entry (JStr "hi there")]).
Proof.
  apply (@plain_answer_is_replied_and_stored script hello_services "hello"
           (initial_state greets)
           [("role", JStr "assistant"); ("content", JStr "hi there")]
           (JStr "hi there")).
  - exists [("choices", JArr [JObj [("message", says "hi there")]])],
      [("message", says "hi there")], [].
    split; [vm_compute; reflexivity|]. split; reflexivity.
  - exact I.
  - reflexivity.
Defined.

Lemma tool_result_is_stored_with_call_id_witness :
  exists output kept tail,
    conversation_history
      (snd (chat_with_llm hello_services "hello" (initial_state insists))) =
      kept ++
        [user_entry "hello";
         tool_call_entry (JArr [weather_call "call_1" tokyo_text]);
         tool_result_entry (JStr "call_1") (JStr "get_weather") output] ++
        tail.
Proof.
  destruct (@tool_result_is_stored_with_call_id script hello_services "hello"
              (initial_state insists)
              [("role", JStr "assistant"); ("content", JNull);
               ("tool_calls", JArr [weather_call "call_1" tokyo_text])]
              (JStr "get_weather") (JObj [("location", JStr "Tokyo")]))
    as (tool_calls & call & more & id & output & kept & tail
        & Hlisted & Hshape & Hid & _ & Hhistory).
  - exists [("choices",
             JArr [JObj [("message",
                          wants_tool (weather_call "call_1" tokyo_text))]])],
      [("message", wants_tool (weather_call "call_1" tokyo_text))], [].
    split; [vm_compute; reflexivity|]. split; reflexivity.
  - exists [("id", JStr "call_1"); ("type", JStr "function");
            ("function", JObj [("name", JStr "get_weather");
                               ("arguments", JStr tokyo_text)])],
      [], [("name", JStr "get_weather"); ("arguments", JStr tokyo_text)],
      tokyo_text, (JStr "call_1").
    repeat split; try reflexivity.
    intros _. exists [("location", JStr "Tokyo")]. reflexivity.
  - subst tool_calls. vm_compute in Hlisted.
    injection Hlisted as <- <-. vm_compute in Hid. injection Hid as <-.
    exists output, kept, tail. exact Hhistory.
Defined.

Lemma weather_failures_are_reported_as_text_witness :
  fst (get_weather keyed_services (JStr "Atlantis") (initial_state [])) =
    Ok "Location 'Atlantis' not found. Please check the city name."%string.
Proof.
  assert (Hkey : WEATHER_API_KEY keyed_services <> EmptyString)
    by discriminate.
  pose proof (@weather_failures_are_reported_as_text script keyed_services
                (JStr "Atlantis") (initial_state []) Hkey) as Hfailures.
  cbv zeta in Hfailures. destruct Hfailures as (Hunknown & _).
  apply Hunknown. reflexivity.
Defined.

Lemma reset_forgets_history_in_next_request_witness :
  exists rest,
    calls (snd (chat_with_llm hello_services "again"
                  (snd (on_frame hello_services (Text reset_text) greeted)))) =
      calls greeted ++
        CallLLM (chat_payload system_prompt_tools [user_entry "again"])
          :: rest.
Proof.
  apply (@reset_forgets_history_in_next_request script hello_services
           reset_text [("type", JStr "reset")] greeted "again").
  - vm_compute. reflexivity.
  - reflexivity.
Defined.

Lemma successful_turn_respects_cap_witness :
  length (conversation_history overgrown) = 11%nat /\
  (length (conversation_history
             (snd (chat_body hello_services "hello" overgrown))) <= 10)%nat.
Proof.
  split; [vm_compute; reflexivity|].
  apply (@successful_turn_respects_cap script hello_services "hello"
           overgrown (snd (chat_body hello_services "hello" overgrown))
           (JStr "hi there")).
  vm_compute. reflexivity.
Defined.

Lemma pairing_kept_unless_id_missing_witness :
  paired (conversation_history
            (snd (chat_with_llm hello_services "hello"
                    (initial_state insists)))) \/
  exists tool_calls,
    conversation_history
      (snd (chat_with_llm hello_services "hello" (initial_state insists))) =
      conversation_history (initial_state insists) ++
        [user_entry "hello"; tool_call_entry tool_calls].
Proof.
  apply (@pairing_kept_unless_id_missing script hello_services "hello"
           (initial_state insists)).
  exact I.
Defined.

